(** * CovidFightPlan: the table loaders and the timeseries expander

    A shallow embedding of [covid_analysis_helpers/data_loader.py]:
    [load_cases_data], [load_patient_info], [assign_age_category] and
    [update_time_df], over a small model of the pandas primitives they call.

    Conventions of the model.
    - A table is taken as [read_csv] returns it; a column is a list of
      entries in row order, and a missing entry (NaN, NaT) is [None].
    - Strings are ASCII strings; Python's [<=] on [str] is the lexicographic
      order on code points, [String.leb].
    - A Python exception is a [Raise] in the [result] monad.
    - What pandas delegates to a number or date parser ([float()],
      [to_datetime]) is a parameter of the loaders. *)

From Stdlib Require Import ZArith List String Ascii Bool Lia.
From Stdlib Require Import DecimalString.
From Stdlib Require DecimalZ.
Import ListNotations.

Local Open Scope string_scope.
Local Open Scope list_scope.
Local Open Scope Z_scope.

Set Implicit Arguments.

(** ** Python and pandas primitives *)

Module Py.

Inductive exn : Type :=
| KeyError
| AttributeError
| TypeError
| ValueError
| OverflowError.

Inductive result (A : Type) : Type :=
| Ok (a : A)
| Raise (e : exn).

Arguments Ok {A} a.
Arguments Raise {A} e.

Definition bind {A B : Type} (r : result A) (k : A -> result B) : result B :=
  match r with
  | Ok a => k a
  | Raise e => Raise e
  end.

(** [[f(x) for x in xs]], stopping at the first exception. *)
Fixpoint traverse {A B : Type} (f : A -> result B) (xs : list A)
  : result (list B) :=
  match xs with
  | [] => Ok []
  | x :: xs' =>
      bind (f x) (fun y => bind (traverse f xs') (fun ys => Ok (y :: ys)))
  end.

(** [a <= b] on [str]. *)
Definition str_le (a b : string) : bool := String.leb a b.

(** [str.isspace] on an ASCII character: TAB, LF, VT, FF, CR, the four
    separators FS, GS, RS, US, and the space. *)
Definition isspace (c : ascii) : bool :=
  let n := nat_of_ascii c in
  ((9 <=? n)%nat && (n <=? 13)%nat)
  || ((28 <=? n)%nat && (n <=? 32)%nat).

Fixpoint lstrip (s : string) : string :=
  match s with
  | EmptyString => EmptyString
  | String c s' => if isspace c then lstrip s' else s
  end.

Fixpoint rstrip (s : string) : string :=
  match s with
  | EmptyString => EmptyString
  | String c s' =>
      match rstrip s' with
      | EmptyString => if isspace c then EmptyString else String c EmptyString
      | t => String c t
      end
  end.

(** [s.strip()] *)
Definition strip (s : string) : string := rstrip (lstrip s).

(** A string of whitespace only. *)
Fixpoint blank (s : string) : bool :=
  match s with
  | EmptyString => true
  | String c s' => isspace c && blank s'
  end.

Definition starts_blank (s : string) : bool :=
  match s with
  | EmptyString => false
  | String c _ => isspace c
  end.

Fixpoint ends_blank (s : string) : bool :=
  match s with
  | EmptyString => false
  | String c EmptyString => isspace c
  | String _ s' => ends_blank s'
  end.

(** [str(n)] on an [int]. *)
Definition str_of_int (n : Z) : string :=
  NilEmpty.string_of_int (Z.to_int n).

(** [mask = column == value] on an object column: a missing entry
    compares unequal to every string. *)
Definition eq_str (value : string) (x : option string) : bool :=
  match x with
  | Some s => String.eqb s value
  | None => false
  end.

(** [df.loc[mask, col] = other.loc[mask]]: the entries of [xs] under a
    true mask are replaced by the entries of [ys] of the same row. *)
Fixpoint assign_where {A : Type} (mask : list bool) (xs ys : list A)
  : list A :=
  match mask, xs, ys with
  | m :: mask', x :: xs', y :: ys' =>
      (if m then y else x) :: assign_where mask' xs' ys'
  | _, _, _ => xs
  end.

(** [df.loc[mask, col] = np.nan] *)
Fixpoint nan_where {A : Type} (mask : list bool) (xs : list (option A))
  : list (option A) :=
  match mask, xs with
  | m :: mask', x :: xs' => (if m then None else x) :: nan_where mask' xs'
  | _, _ => xs
  end.

End Py.

Import Py.

Notation "x <- e ;; k" := (Py.bind e (fun x => k))
  (at level 61, e at next level, right associativity).

(** ** Columns as [read_csv] types them *)

Module Column.

(** A column read from a file is numeric when every entry reads as a
    number, and an object column of strings otherwise. *)
Inductive column (F : Type) : Type :=
| Numeric (xs : list (option F))
| Object (xs : list (option string)).

Arguments Numeric {F} xs.
Arguments Object {F} xs.

(** A column named in [parse_dates] holds timestamps (nanoseconds since
    the epoch, [None] for NaT) when every entry was parsed, and is left as
    the strings it was read as otherwise. *)
Inductive date_column : Type :=
| Datetime (xs : list (option Z))
| Text (xs : list (option string)).

Definition size {F : Type} (c : column F) : nat :=
  match c with
  | Numeric xs => List.length xs
  | Object xs => List.length xs
  end.

(** [column == value] *)
Definition eq_mask {F : Type} (value : string) (c : column F) : list bool :=
  match c with
  | Numeric xs => map (fun _ => false) xs
  | Object xs => map (Py.eq_str value) xs
  end.

(** [df.loc[mask, column] = np.nan] *)
Definition set_nan {F : Type} (mask : list bool) (c : column F) : column F :=
  match c with
  | Numeric xs => Numeric (Py.nan_where mask xs)
  | Object xs => Object (Py.nan_where mask xs)
  end.

(** [column.str.len() == n]; the [.str] accessor exists on object columns
    only, and the length of a missing entry is missing. *)
Definition str_len_mask {F : Type} (n : nat) (c : column F)
  : result (list bool) :=
  match c with
  | Numeric _ => Raise AttributeError
  | Object xs =>
      Ok (map (fun x => match x with
                        | Some s => Nat.eqb (String.length s) n
                        | None => false
                        end) xs)
  end.

Section Cast.
Variable F : Type.
(** [float(s)]: [None] when it raises, [Some None] when it reads NaN. *)
Variable float_of_str : string -> option (option F).

Definition float_of_entry (x : option string) : result (option F) :=
  match x with
  | None => Ok None
  | Some s =>
      match float_of_str s with
      | Some v => Ok v
      | None => Raise ValueError
      end
  end.

(** [column.astype(float)] *)
Definition astype_float (c : column F) : result (list (option F)) :=
  match c with
  | Numeric xs => Ok xs
  | Object xs => Py.traverse float_of_entry xs
  end.
End Cast.

End Column.

Import Column.

(** ** The patient loader *)

Module Patient.

Definition age_categories : list string :=
  ["0s"; "10s"; "20s"; "30s"; "40s"; "50s"; "60s"; "70s"; "80s"; "90s";
   "100s"].

Definition age_category_names : list string := ["young"; "middle"; "old"].

(** [astype(CategoricalDtype(categories))]: an entry that is not one of
    the categories becomes missing. *)
Definition astype_category (categories : list string) (x : option string)
  : option string :=
  match x with
  | Some s => if existsb (String.eqb s) categories then Some s else None
  | None => None
  end.

(** [assign_age_category]: applied to the entries of the categorical
    [age] column, which reach it as [str]. *)
Definition assign_age_category (x : option string) : option string :=
  match x with
  | None => None
  | Some s =>
      if Py.str_le s "20s" then Some "young"
      else if Py.str_le s "50s" then Some "middle"
      else Some "old"
  end.

(** The age bucket as the specification words it: by position in the
    ordered decade scale. *)
Fixpoint position (s : string) (scale : list string) : option nat :=
  match scale with
  | [] => None
  | c :: scale' =>
      if String.eqb s c then Some O
      else option_map S (position s scale')
  end.

Definition age_category_spec (x : option string) : option string :=
  match x with
  | None => None
  | Some s =>
      match position s age_categories,
            position "20s" age_categories,
            position "50s" age_categories with
      | Some r, Some r20, Some r50 =>
          if (r <=? r20)%nat then Some "young"
          else if (r <=? r50)%nat then Some "middle"
          else Some "old"
      | _, _, _ => None
      end
  end.

(** Timestamps and their differences. *)
Definition ns_per_day : Z := 86400 * 1000000000.

Definition int64_ok (n : Z) : bool := (- 2 ^ 63 <? n) && (n <? 2 ^ 63).

(** [a - b] on two [Timestamp]s: a [Timedelta] in nanoseconds, NaT when
    either is NaT, an error when it does not fit 64 bits. *)
Definition sub_timestamp (a b : option Z) : result (option Z) :=
  match a, b with
  | Some x, Some y =>
      if int64_ok (x - y) then Ok (Some (x - y)) else Raise OverflowError
  | _, _ => Ok None
  end.

(** [Timedelta.days]: whole days, rounded down. *)
Definition days (d : option Z) : option Z :=
  option_map (fun n => n / ns_per_day) d.

(** [lambda x: (x.dst - x.src).days] on one row. *)
Definition interval (dst src : option Z) : result (option Z) :=
  d <- sub_timestamp dst src ;; Ok (days d).

(** [df.apply(lambda x: (x.dst - x.src).days, axis=1).astype("float32")]:
    a day count is below [2 ^ 24] in magnitude, where single precision is
    exact, so the column is kept as integers. *)
Definition intervals (dst src : list (option Z)) : result (list (option Z)) :=
  Py.traverse (fun p => interval (fst p) (snd p)) (combine dst src).

(** Midnight of a calendar day as a timestamp (proleptic Gregorian
    calendar), to write dates in examples. *)
Definition days_from_civil (y m d : Z) : Z :=
  let y' := if m <=? 2 then y - 1 else y in
  let era := y' / 400 in
  let yoe := y' - era * 400 in
  let mp := (m + 9) mod 12 in
  let doy := (153 * mp + 2) / 5 + d - 1 in
  let doe := yoe * 365 + yoe / 4 - yoe / 100 + doy in
  era * 146097 + doe - 719468.

Definition date (y m d : Z) : Z := days_from_civil y m d * ns_per_day.

(** The table [read_csv] returns.  [symptom_onset_date] is typed as
    [read_csv] left it; the three date columns the loader does not parse
    again are taken as parsed. *)
Record patient_csv (F64 : Type) : Type := {
  patient_id : list Z;
  sex : list (option string);
  age : list (option string);
  country : list (option string);
  province : list (option string);
  city : list (option string);
  infection_case : list (option string);
  infected_by : list (option string);
  contact_number : column F64;
  symptom_onset_date : date_column;
  confirmed_date : list (option Z);
  released_date : list (option Z);
  deceased_date : list (option Z);
  state : list (option string)
}.

(** The returned table, indexed by [patient_id]. *)
Record patient_info (F32 : Type) : Type := {
  index : list string;
  o_sex : list (option string);
  o_age : list (option string);
  o_country : list (option string);
  o_province : list (option string);
  o_city : list (option string);
  o_infection_case : list (option string);
  o_infected_by : list (option string);
  o_contact_number : list (option F32);
  o_symptom_onset_date : list (option Z);
  o_confirmed_date : list (option Z);
  o_released_date : list (option Z);
  o_deceased_date : list (option Z);
  o_state : list (option string);
  age_category : list (option string);
  symptom_to_confirmed : list (option Z);
  confirmed_to_released : list (option Z);
  confirmed_to_deceased : list (option Z)
}.

Section Loader.
Variables F64 F32 : Type.
(** [float(s)] rounded to single precision. *)
Variable float_of_str : string -> option (option F32).
(** The date parser behind [astype("datetime64")]: [None] when it
    raises, [Some None] when it reads NaT. *)
Variable to_datetime : string -> option (option Z).

Definition datetime_of_entry (x : option string) : result (option Z) :=
  match x with
  | None => Ok None
  | Some s =>
      match to_datetime s with
      | Some t => Ok t
      | None => Raise ValueError
      end
  end.

(** [column.str.strip().astype("datetime64")] *)
Definition strip_and_parse (c : date_column) : result (list (option Z)) :=
  match c with
  | Datetime _ => Raise AttributeError
  | Text xs =>
      Py.traverse datetime_of_entry (map (option_map Py.strip) xs)
  end.

(** The two masks that null [contact_number]. *)
Definition clean_contact_number (c : column F64) : result (column F64) :=
  let c1 := set_nan (eq_mask "-" c) c in
  mask <- str_len_mask 10 c1 ;;
  Ok (set_nan mask c1).

(** [astype("float32")]; a numeric column never reaches it. *)
Definition contact_to_float32 (c : column F64)
  : result (list (option F32)) :=
  match c with
  | Numeric _ => Raise AttributeError
  | Object xs => Py.traverse (float_of_entry float_of_str) xs
  end.

Definition load_patient_info (df : patient_csv F64)
  : result (patient_info F32) :=
  symptom <- strip_and_parse (symptom_onset_date df) ;;
  contact <- clean_contact_number (contact_number df) ;;
  contact32 <- contact_to_float32 contact ;;
  let age' := map (astype_category age_categories) (age df) in
  let category :=
    map (astype_category age_category_names)
        (map assign_age_category age') in
  s2c <- intervals (confirmed_date df) symptom ;;
  c2r <- intervals (released_date df) (confirmed_date df) ;;
  c2d <- intervals (deceased_date df) (confirmed_date df) ;;
  Ok {| index := map Py.str_of_int (patient_id df);
        o_sex := sex df;
        o_age := age';
        o_country := country df;
        o_province := province df;
        o_city := city df;
        o_infection_case := infection_case df;
        o_infected_by := infected_by df;
        o_contact_number := contact32;
        o_symptom_onset_date := symptom;
        o_confirmed_date := confirmed_date df;
        o_released_date := released_date df;
        o_deceased_date := deceased_date df;
        o_state := state df;
        age_category := category;
        symptom_to_confirmed := s2c;
        confirmed_to_released := c2r;
        confirmed_to_deceased := c2d |}.
End Loader.

(** *** What the specification says of a row *)


(** What the two masks leave of an entry. *)
Definition kept_contact (c : option string) : option string :=
  match c with
  | Some s =>
      if String.eqb s "-" || Nat.eqb (String.length s) 10 then None
      else Some s
  | None => None
  end.

(** The day count of an interval: the difference in whole days when both
    dates are present, missing otherwise. *)
Definition day_count (dst src : option Z) : option Z :=
  match dst, src with
  | Some x, Some y => Some ((x - y) / ns_per_day)
  | _, _ => None
  end.



Definition parse_trimmed (to_datetime : string -> option (option Z))
           (x : option string) : option Z :=
  match x with
  | None => None
  | Some s =>
      match to_datetime (Py.strip s) with
      | Some t => t
      | None => None
      end
  end.

(** The contact numbers the loader nulls or can read. *)
Definition readable_contact {F32 : Type}
           (float_of_str : string -> option (option F32))
           (x : option string) : bool :=
  match x with
  | None => true
  | Some s =>
      String.eqb s "-" || Nat.eqb (String.length s) 10
      || match float_of_str s with
         | Some _ => true
         | None => false
         end
  end.

End Patient.

(** ** The cases loader *)

Module Cases.

(** The table [read_csv] returns, its column names already stripped. *)
Record cases_csv (F : Type) : Type := {
  case_id : list Z;
  province : list (option string);
  city : list (option string);
  group : list bool;
  infection_case : list (option string);
  confirmed : list Z;
  latitude : column F;
  longitude : column F
}.

Record cases (F : Type) : Type := {
  o_case_id : list string;
  o_province : list (option string);
  o_city : list (option string);
  o_group : list bool;
  o_infection_case : list (option string);
  o_confirmed : list Z;
  o_latitude : list (option F);
  o_longitude : list (option F);
  sub_city : list (option string)
}.

Section Loader.
Variable F : Type.
Variable float_of_str : string -> option (option F).

Definition load_cases_data (df : cases_csv F) : result (cases F) :=
  let no_coordinates := eq_mask "-" (latitude df) in
  let latitude1 := set_nan no_coordinates (latitude df) in
  let longitude1 := set_nan no_coordinates (longitude df) in
  let without_city := map (Py.eq_str "-") (city df) in
  let city1 := Py.assign_where without_city (city df) (province df) in
  let sub_city0 := city1 in
  let other_city := map (Py.eq_str "from other city") city1 in
  let sub_city1 := Py.assign_where other_city sub_city0 (province df) in
  lat <- astype_float float_of_str latitude1 ;;
  lon <- astype_float float_of_str longitude1 ;;
  Ok {| o_case_id := map Py.str_of_int (case_id df);
        o_province := province df;
        o_city := city1;
        o_group := group df;
        o_infection_case := infection_case df;
        o_confirmed := confirmed df;
        o_latitude := lat;
        o_longitude := lon;
        sub_city := sub_city1 |}.
End Loader.

End Cases.

(** ** The timeseries expander *)

Module TimeSeries.

(** An entry of the table handed to the expander: a count, a missing
    value, or text (a label such as a province, which reads as no
    number).  Counts are integers: pandas computes their differences in
    double precision, which is exact on integers below [2 ^ 53] in
    magnitude, and the model computes them in [Z]. *)
Inductive cell : Type :=
| Int (z : Z)
| NaN
| Str (s : string).

(** An entry of the tables the expander leaves behind: an entry of the
    input, or the floating-point quotient [n / d] of two integers, which is
    kept as the pair it was computed from. *)
Inductive value : Type :=
| Cell (c : cell)
| Ratio (n d : Z).

(** A table: its row labels and its columns in order; every column has one
    entry per row. *)
Record frame (A : Type) : Type := {
  index : list cell;
  columns : list (string * list A)
}.

Definition well_formed {A : Type} (df : frame A) : Prop :=
  NoDup (map fst (columns df))
  /\ Forall (fun c => List.length (snd c) = List.length (index df))
           (columns df).

(** The state of the caller's two mutable arguments after the call, and
    what the call returned or raised. *)
Record outcome : Type := {
  returned : result (frame value);
  df_after : frame value;
  expand_after : list string
}.

(** [a == b] on labels; NaN equals nothing. *)
Definition cell_eqb (a b : cell) : bool :=
  match a, b with
  | Int x, Int y => Z.eqb x y
  | Str s, Str t => String.eqb s t
  | _, _ => false
  end.

(** [df[name]] *)
Fixpoint lookup {A : Type} (name : string) (cols : list (string * list A))
  : option (list A) :=
  match cols with
  | [] => None
  | (n, c) :: cols' => if String.eqb n name then Some c else lookup name cols'
  end.

Definition getitem {A : Type} (name : string) (cols : list (string * list A))
  : result (list A) :=
  match lookup name cols with
  | Some c => Ok c
  | None => Raise KeyError
  end.

(** [df[names]] *)
Definition select {A : Type} (names : list string)
           (cols : list (string * list A))
  : result (list (string * list A)) :=
  Py.traverse (fun n => c <- getitem n cols ;; Ok (n, c)) names.

(** [df[name] = column]: in place when the name exists, appended
    otherwise. *)
Fixpoint setitem {A : Type} (name : string) (col : list A)
         (cols : list (string * list A)) : list (string * list A) :=
  match cols with
  | [] => [(name, col)]
  | (n, c) :: cols' =>
      if String.eqb n name then (n, col) :: cols'
      else (n, c) :: setitem name col cols'
  end.

(** [a - b] *)
Definition sub_cell (a b : cell) : result cell :=
  match a, b with
  | Int x, Int y => Ok (Int (x - y))
  | Str _, _ | _, Str _ => Raise TypeError
  | _, _ => Ok NaN
  end.

(** [column.diff()]: each entry minus the one of the row before, missing
    on the first row. *)
Fixpoint diff_from (prev : option cell) (xs : list cell)
  : result (list cell) :=
  match xs with
  | [] => Ok []
  | x :: xs' =>
      d <- match prev with
           | None => Ok NaN
           | Some p => sub_cell x p
           end ;;
      ds <- diff_from (Some x) xs' ;;
      Ok (d :: ds)
  end.

Definition diff (xs : list cell) : result (list cell) := diff_from None xs.

(** The last entry seen in the group of [key]. *)
Fixpoint previous {A : Type} (key : cell) (seen : list (cell * A))
  : option A :=
  match seen with
  | [] => None
  | (k, x) :: seen' => if cell_eqb k key then Some x else previous key seen'
  end.

(** [df.groupby(keys)[column].diff()]: each entry minus the entry of the
    previous row of its group, in the row order of the table; missing on
    the first row of a group and on a row whose key is missing. *)
Fixpoint grouped_diff_from (seen : list (cell * cell))
         (keys xs : list cell) : result (list cell) :=
  match keys, xs with
  | k :: keys', x :: xs' =>
      d <- match previous k seen with
           | None => Ok NaN
           | Some p => sub_cell x p
           end ;;
      ds <- grouped_diff_from ((k, x) :: seen) keys' xs' ;;
      Ok (d :: ds)
  | _, _ => Ok []
  end.

Definition grouped_diff (keys xs : list cell) : result (list cell) :=
  grouped_diff_from [] keys xs.

Definition on_columns {A B : Type} (f : list A -> result (list B))
           (cols : list (string * list A))
  : result (list (string * list B)) :=
  Py.traverse (fun nc => c <- f (snd nc) ;; Ok (fst nc, c)) cols.

(** [column.fillna(value=other)] *)
Fixpoint fillna (xs other : list cell) : list cell :=
  match xs, other with
  | NaN :: xs', o :: other' => o :: fillna xs' other'
  | x :: xs', _ :: other' => x :: fillna xs' other'
  | _, _ => xs
  end.

(** [df_new.fillna(value=df)]: each column is filled from the column of
    the same name. *)
Definition fillna_frame (cols other : list (string * list cell))
  : list (string * list cell) :=
  map (fun nc => match lookup (fst nc) other with
                 | Some o => (fst nc, fillna (snd nc) o)
                 | None => nc
                 end) cols.

(** [int(x)] as [astype(int)] applies it: a missing value cannot be cast,
    text reads as no number. *)
Definition int_of_cell (c : cell) : result Z :=
  match c with
  | Int z => Ok z
  | NaN => Raise ValueError
  | Str _ => Raise ValueError
  end.

Definition astype_int (xs : list cell) : result (list Z) :=
  Py.traverse int_of_cell xs.

(** [a / b] on two integer columns. *)
Definition truediv_int (xs ys : list Z) : list value :=
  map (fun p => Ratio (fst p) (snd p)) (combine xs ys).

(** [a / b] on two columns of the input. *)
Definition div_cell (a b : cell) : result value :=
  match a, b with
  | Int x, Int y => Ok (Ratio x y)
  | Str _, _ | _, Str _ => Raise TypeError
  | _, _ => Ok (Cell NaN)
  end.

Definition truediv (xs ys : list cell) : result (list value) :=
  Py.traverse (fun p => div_cell (fst p) (snd p)) (combine xs ys).

Definition ratio_column_name (ratio : string * string) : string :=
  (fst ratio ++ "_to_" ++ snd ratio ++ "_ratio")%string.

(** [df.add_prefix(prefix)] *)
Definition add_prefix {A : Type} (prefix : string)
           (cols : list (string * list A)) : list (string * list A) :=
  map (fun nc => ((prefix ++ fst nc)%string, snd nc)) cols.

(** [df.rename(columns={old: new}, inplace=True)] *)
Definition rename {A : Type} (old new : string)
           (cols : list (string * list A)) : list (string * list A) :=
  map (fun nc => (if String.eqb (fst nc) old then new else fst nc, snd nc))
      cols.

Definition lift (cols : list (string * list cell))
  : list (string * list value) :=
  map (fun nc => (fst nc, map Cell (snd nc))) cols.

(** Lines 166-170: the differences, per group or over the whole table. *)
Definition differences (df : frame cell) (expand : list string)
           (grouping : option string) : result (list (string * list cell)) :=
  match grouping with
  | Some g =>
      keys <- getitem g (columns df) ;;
      selected <- select expand (columns df) ;;
      on_columns (grouped_diff keys) selected
  | None =>
      selected <- select expand (columns df) ;;
      on_columns diff selected
  end.

(** Lines 166-175: the table of daily updates, which reads [df] only. *)
Definition daily_updates (df : frame cell) (expand : list string)
           (ratio : string * string) (grouping : option string)
  : result (list (string * list value)) :=
  d <- differences df expand grouping ;;
  let filled := fillna_frame d (columns df) in
  ints <- on_columns astype_int filled ;;
  numerator <- getitem (fst ratio) ints ;;
  denominator <- getitem (snd ratio) ints ;;
  let df_new :=
    setitem (ratio_column_name ratio) (truediv_int numerator denominator)
            (map (fun nc => (fst nc, map (fun z => Cell (Int z)) (snd nc)))
                 ints) in
  Ok (add_prefix "new_" df_new).

(** Lines 177-181, on the caller's table and on the caller's list. *)
Definition accumulated_columns (expand : list string)
           (cols : list (string * list value)) : list (string * list value) :=
  fold_left
    (fun acc column => rename column ("accumulated_" ++ column)%string acc)
    expand cols.

(** The caller's table as it was handed in. *)
Definition unchanged (df : frame cell) : frame value :=
  {| index := index df; columns := lift (columns df) |}.

Definition update_time_df (df : frame cell) (expand : list string)
           (ratio : string * string) (grouping : option string) : outcome :=
  let untouched (e : exn) :=
    {| returned := Raise e;
       df_after := unchanged df;
       expand_after := expand |} in
  match daily_updates df expand ratio grouping with
  | Raise e => untouched e
  | Ok df_new =>
      match
        (numerator <- getitem (fst ratio) (columns df) ;;
         denominator <- getitem (snd ratio) (columns df) ;;
         truediv numerator denominator)
      with
      | Raise e => untouched e
      | Ok quotient =>
          let df1 :=
            setitem (ratio_column_name ratio) quotient (lift (columns df)) in
          let expand1 := expand ++ [ratio_column_name ratio] in
          let df2 := accumulated_columns expand1 df1 in
          {| returned :=
               Ok {| index := index df; columns := df2 ++ df_new |};
             df_after := {| index := index df; columns := df2 |};
             expand_after := expand1 |}
      end
  end.

End TimeSeries.

(** *** What the specification says of the expander *)

Module TimeSeriesSpec.
Import TimeSeries.

Definition mem (s : string) (l : list string) : bool :=
  existsb (String.eqb s) l.

Definition names {A : Type} (cols : list (string * list A)) : list string :=
  map fst cols.

(** Every column has [len] rows. *)
Definition rows {A : Type} (len : nat) (cols : list (string * list A)) : Prop :=
  Forall (fun c => List.length (snd c) = len) cols.

(** The names the expander derives do not collide with the caller's: the
    ratio column is new to the table, and no column and no entry of
    [expand] already bears the [accumulated_] or [new_] name of an
    expanded column. *)
Definition fresh_names (df : frame cell) (expand : list string)
           (ratio : string * string) : bool :=
  let expand1 := expand ++ [ratio_column_name ratio] in
  negb (mem (ratio_column_name ratio) (names (columns df)))
  && forallb (fun c =>
                negb (mem ("accumulated_" ++ c)%string expand1)
                && negb (mem ("accumulated_" ++ c)%string
                             (names (columns df)))
                && negb (mem ("new_" ++ c)%string (names (columns df))))
             expand1.

(** The name a column of the caller's table bears after the call. *)
Definition accumulated_name (expand1 : list string) (n : string) : string :=
  if mem n expand1 then ("accumulated_" ++ n)%string else n.

(** A column of counts as entries of a returned table. *)
Definition counts (zs : list Z) : list value :=
  map (fun z => Cell (Int z)) zs.

(** The group of each row: the grouping column, or one group for the whole
    table. *)
Definition group_keys (df : frame cell) (grouping : option string)
  : list cell :=
  match grouping with
  | Some g =>
      match lookup g (columns df) with
      | Some keys => keys
      | None => []
      end
  | None => repeat (Int 0) (List.length (index df))
  end.

Definition same_group (keys : list cell) (j i : nat) : bool :=
  match nth_error keys j, nth_error keys i with
  | Some a, Some b => cell_eqb a b
  | _, _ => false
  end.

(** Row [i] is the first row of its group. *)
Definition first_of_group (keys : list cell) (i : nat) : Prop :=
  forall j, (j < i)%nat -> same_group keys j i = false.

(** Row [j] is the row before row [i] in the group of row [i]. *)
Definition previous_of_group (keys : list cell) (j i : nat) : Prop :=
  (j < i)%nat /\ same_group keys j i = true
  /\ forall m, (j < m < i)%nat -> same_group keys m i = false.

(** [ds] is the first difference of [xs] along row order, per group, the
    first row of a group falling back to the accumulated value. *)
Definition first_difference (keys : list cell) (xs ds : list Z) : Prop :=
  List.length ds = List.length xs
  /\ forall i x d,
      nth_error xs i = Some x -> nth_error ds i = Some d ->
      (first_of_group keys i -> d = x)
      /\ (forall j y, previous_of_group keys j i ->
                      nth_error xs j = Some y -> d = x - y).

(** The same without groups, as a function: each value minus the one
    before, the first one minus zero. *)
Fixpoint deltas (prev : Z) (xs : list Z) : list Z :=
  match xs with
  | [] => []
  | x :: xs' => (x - prev) :: deltas x xs'
  end.

(** The same per group, as a function: each value minus the last value
    seen in its group, or minus nothing. *)
Fixpoint grouped_deltas (seen : list (cell * Z)) (keys : list cell)
         (zs : list Z) : list Z :=
  match keys, zs with
  | k :: keys', z :: zs' =>
      match previous k seen with
      | None => z
      | Some p => z - p
      end :: grouped_deltas ((k, z) :: seen) keys' zs'
  | _, _ => []
  end.




End TimeSeriesSpec.

(** ** Tables and parsers the statements are run on *)

Module Examples.
Import Patient.

Fixpoint digits_value (acc : Z) (s : string) : option Z :=
  match s with
  | EmptyString => Some acc
  | String c s' =>
      let n := Z.of_nat (nat_of_ascii c) in
      if (48 <=? n) && (n <=? 57)
      then digits_value (acc * 10 + (n - 48)) s'
      else None
  end.

(** A parser of unsigned decimal numbers. *)
Definition read_number (s : string) : option Z :=
  match s with
  | EmptyString => None
  | _ => digits_value 0 s
  end.

(** The number parser of the examples: decimal digits, never NaN. *)
Definition plain_number (s : string) : option (option Z) :=
  option_map Some (read_number s).

(** The date parser of the examples: [YYYY-MM-DD], and NaT for the empty
    string. *)
Definition iso_date (s : string) : option (option Z) :=
  match s with
  | EmptyString => Some None
  | _ =>
      if Nat.eqb (String.length s) 10
         && String.eqb (substring 4 1 s) "-"
         && String.eqb (substring 7 1 s) "-"
      then
        match read_number (substring 0 4 s),
              read_number (substring 5 2 s),
              read_number (substring 8 2 s) with
        | Some y, Some m, Some d => Some (Some (date y m d))
        | _, _, _ => None
        end
      else None
  end.

Definition patients : patient_csv Z :=
  {| patient_id := [1000000001; 1000000002; 1000000003; 1000000004;
                    1000000005];
     sex := [Some "male"; Some "female"; Some "male"; None; Some "female"];
     age := [Some "10s"; Some "30s"; Some "70s"; None; Some "100s"];
     country := [Some "Korea"; Some "Korea"; Some "China"; Some "Korea";
                 Some "Korea"];
     province := [Some "Seoul"; Some "Seoul"; Some "Busan"; Some "Daegu";
                  Some "Seoul"];
     city := [Some "Gangseo-gu"; Some "Jungnang-gu"; None; Some "Nam-gu";
              Some "etc"];
     infection_case := [Some "overseas inflow"; None;
                        Some "contact with patient"; Some "etc"; None];
     infected_by := [None; None; Some "1000000002"; None; None];
     contact_number := Object [Some "75"; Some "-"; Some "1000000796"; None;
                               Some "3"];
     symptom_onset_date := Text [Some " 2020-01-05"; Some "2020-01-08 ";
                                 None; Some " "; Some "2020-01-09"];
     confirmed_date := [Some (date 2020 1 10); Some (date 2020 1 10); None;
                        Some (date 2020 2 1); Some (date 2020 1 9)];
     released_date := [Some (date 2020 1 20); None; Some (date 2020 2 3);
                       None; None];
     deceased_date := [None; Some (date 2020 2 19); None; None; None];
     state := [Some "released"; Some "deceased"; Some "released";
               Some "isolated"; Some "isolated"] |}.

(** One patient aged ["100s"]. *)
Definition centenarian (F64 : Type) : patient_csv F64 :=
  {| patient_id := [1000000006];
     sex := [Some "female"];
     age := [Some "100s"];
     country := [Some "Korea"];
     province := [Some "Seoul"];
     city := [None];
     infection_case := [None];
     infected_by := [None];
     contact_number := Object [None];
     symptom_onset_date := Text [None];
     confirmed_date := [None];
     released_date := [None];
     deceased_date := [None];
     state := [Some "isolated"] |}.

Definition infection_cases : Cases.cases_csv Z :=
  {| Cases.case_id := [1000001; 1000036; 1200009];
     Cases.province := [Some "Seoul"; Some "Seoul"; Some "Daegu"];
     Cases.city := [Some "Yongsan-gu"; Some "from other city"; Some "-"];
     Cases.group := [true; true; false];
     Cases.infection_case := [Some "Itaewon Clubs"; Some "Shincheonji Church";
                              Some "etc"];
     Cases.confirmed := [139; 8; 747];
     Cases.latitude := Object [Some "37"; Some "-"; Some "-"];
     Cases.longitude := Object [Some "126"; Some "-"; Some "-"] |}.

(** What the loaders return on the two tables above. *)
Definition patients_loaded : patient_info Z :=
  {| index := ["1000000001"; "1000000002"; "1000000003"; "1000000004";
               "1000000005"];
     o_sex := [Some "male"; Some "female"; Some "male"; None; Some "female"];
     o_age := [Some "10s"; Some "30s"; Some "70s"; None; Some "100s"];
     o_country := [Some "Korea"; Some "Korea"; Some "China"; Some "Korea";
                   Some "Korea"];
     o_province := [Some "Seoul"; Some "Seoul"; Some "Busan"; Some "Daegu";
                    Some "Seoul"];
     o_city := [Some "Gangseo-gu"; Some "Jungnang-gu"; None; Some "Nam-gu";
                Some "etc"];
     o_infection_case := [Some "overseas inflow"; None;
                          Some "contact with patient"; Some "etc"; None];
     o_infected_by := [None; None; Some "1000000002"; None; None];
     o_contact_number := [Some 75; None; None; None; Some 3];
     o_symptom_onset_date := [Some (date 2020 1 5); Some (date 2020 1 8); None;
                              None; Some (date 2020 1 9)];
     o_confirmed_date := [Some (date 2020 1 10); Some (date 2020 1 10); None;
                          Some (date 2020 2 1); Some (date 2020 1 9)];
     o_released_date := [Some (date 2020 1 20); None; Some (date 2020 2 3);
                         None; None];
     o_deceased_date := [None; Some (date 2020 2 19); None; None; None];
     o_state := [Some "released"; Some "deceased"; Some "released";
                 Some "isolated"; Some "isolated"];
     age_category := [Some "young"; Some "middle"; Some "old"; None;
                      Some "young"];
     symptom_to_confirmed := [Some 5; Some 2; None; None; Some 0];
     confirmed_to_released := [Some 10; None; None; None; None];
     confirmed_to_deceased := [None; Some 40; None; None; None] |}.

Definition infection_cases_loaded : Cases.cases Z :=
  {| Cases.o_case_id := ["1000001"; "1000036"; "1200009"];
     Cases.o_province := [Some "Seoul"; Some "Seoul"; Some "Daegu"];
     Cases.o_city := [Some "Yongsan-gu"; Some "from other city";
                      Some "Daegu"];
     Cases.o_group := [true; true; false];
     Cases.o_infection_case := [Some "Itaewon Clubs";
                                Some "Shincheonji Church"; Some "etc"];
     Cases.o_confirmed := [139; 8; 747];
     Cases.o_latitude := [Some 37; None; None];
     Cases.o_longitude := [Some 126; None; None];
     Cases.sub_city := [Some "Yongsan-gu"; Some "Seoul"; Some "Daegu"] |}.

Import TimeSeries.

(** Accumulated counts of three days. *)
Definition time : frame cell :=
  {| index := [Str "2020-01-20"; Str "2020-01-21"; Str "2020-01-22"];
     columns := [("confirmed", [Int 10; Int 15; Int 23]);
                 ("deceased", [Int 0; Int 1; Int 3])] |}.

(** Accumulated counts of two provinces over two days. *)
Definition time_province : frame cell :=
  {| index := [Str "2020-01-20"; Str "2020-01-20"; Str "2020-01-21";
               Str "2020-01-21"];
     columns := [("province", [Str "Seoul"; Str "Busan"; Str "Seoul";
                               Str "Busan"]);
                 ("confirmed", [Int 10; Int 20; Int 14; Int 27]);
                 ("deceased", [Int 1; Int 0; Int 2; Int 1])] |}.

Definition time_expand : list string := ["confirmed"; "deceased"].

Definition time_ratio : string * string := ("deceased", "confirmed").

(** What the expander returns on [time], ungrouped. *)
Definition time_expanded : frame value :=
  {| index := [Str "2020-01-20"; Str "2020-01-21"; Str "2020-01-22"];
     columns :=
       [("accumulated_confirmed",
         [Cell (Int 10); Cell (Int 15); Cell (Int 23)]);
        ("accumulated_deceased", [Cell (Int 0); Cell (Int 1); Cell (Int 3)]);
        ("accumulated_deceased_to_confirmed_ratio",
         [Ratio 0 10; Ratio 1 15; Ratio 3 23]);
        ("new_confirmed", [Cell (Int 10); Cell (Int 5); Cell (Int 8)]);
        ("new_deceased", [Cell (Int 0); Cell (Int 1); Cell (Int 2)]);
        ("new_deceased_to_confirmed_ratio",
         [Ratio 0 10; Ratio 1 5; Ratio 2 8])] |}.

(** What the expander returns on [time_province], grouped by province. *)
Definition time_province_expanded : frame value :=
  {| index := [Str "2020-01-20"; Str "2020-01-20"; Str "2020-01-21";
               Str "2020-01-21"];
     columns :=
       [("province", [Cell (Str "Seoul"); Cell (Str "Busan");
                      Cell (Str "Seoul"); Cell (Str "Busan")]);
        ("accumulated_confirmed",
         [Cell (Int 10); Cell (Int 20); Cell (Int 14); Cell (Int 27)]);
        ("accumulated_deceased",
         [Cell (Int 1); Cell (Int 0); Cell (Int 2); Cell (Int 1)]);
        ("accumulated_deceased_to_confirmed_ratio",
         [Ratio 1 10; Ratio 0 20; Ratio 2 14; Ratio 1 27]);
        ("new_confirmed",
         [Cell (Int 10); Cell (Int 20); Cell (Int 4); Cell (Int 7)]);
        ("new_deceased",
         [Cell (Int 1); Cell (Int 0); Cell (Int 1); Cell (Int 1)]);
        ("new_deceased_to_confirmed_ratio",
         [Ratio 1 10; Ratio 0 20; Ratio 1 4; Ratio 1 7])] |}.

(** The same counts with one day's count not recorded. *)
Definition time_with_gap : frame cell :=
  {| index := [Str "2020-01-20"; Str "2020-01-21"; Str "2020-01-22"];
     columns := [("confirmed", [Int 10; NaN; Int 23]);
                 ("deceased", [Int 0; Int 1; Int 3])] |}.

End Examples.

(** ** Shapes and readable entries of the loaders' tables *)

Module CasesSpec.
Import Cases.

(** The string entries of a column; an entry read as a number is no
    string. *)
Definition strings {F : Type} (c : column F) : list (option string) :=
  match c with
  | Numeric xs => map (fun _ => None) xs
  | Object xs => xs
  end.

(** Row [i] carries the sentinel in [latitude]. *)
Definition sentinel_row {F : Type} (df : cases_csv F) (i : nat) : Prop :=
  nth_error (strings (latitude df)) i = Some (Some "-").

(** Off the sentinel rows, every coordinate read as a string spells a
    number. *)
Definition readable_coordinates {F : Type}
           (float_of_str : string -> option (option F))
           (df : cases_csv F) : Prop :=
  forall i s,
    ~ sentinel_row df i ->
    nth_error (strings (latitude df)) i = Some (Some s)
    \/ nth_error (strings (longitude df)) i = Some (Some s) ->
    float_of_str s <> None.

(** Every column of the table read has [n] rows. *)
Definition csv_rows {F : Type} (n : nat) (df : cases_csv F) : Prop :=
  List.length (case_id df) = n
  /\ List.length (province df) = n
  /\ List.length (city df) = n
  /\ List.length (group df) = n
  /\ List.length (infection_case df) = n
  /\ List.length (confirmed df) = n
  /\ size (latitude df) = n
  /\ size (longitude df) = n.

(** Every column of the table returned has [n] rows. *)
Definition loaded_rows {F : Type} (n : nat) (out : cases F) : Prop :=
  List.length (o_case_id out) = n
  /\ List.length (o_province out) = n
  /\ List.length (o_city out) = n
  /\ List.length (o_group out) = n
  /\ List.length (o_infection_case out) = n
  /\ List.length (o_confirmed out) = n
  /\ List.length (o_latitude out) = n
  /\ List.length (o_longitude out) = n
  /\ List.length (sub_city out) = n.

End CasesSpec.

Module PatientSpec.
Import Patient.

Definition date_size (c : date_column) : nat :=
  match c with
  | Datetime xs => List.length xs
  | Text xs => List.length xs
  end.

(** Every column of the table read has [n] rows. *)
Definition csv_rows {F64 : Type} (n : nat) (df : patient_csv F64) : Prop :=
  List.length (patient_id df) = n
  /\ List.length (sex df) = n
  /\ List.length (age df) = n
  /\ List.length (country df) = n
  /\ List.length (province df) = n
  /\ List.length (city df) = n
  /\ List.length (infection_case df) = n
  /\ List.length (infected_by df) = n
  /\ size (contact_number df) = n
  /\ date_size (symptom_onset_date df) = n
  /\ List.length (confirmed_date df) = n
  /\ List.length (released_date df) = n
  /\ List.length (deceased_date df) = n
  /\ List.length (state df) = n.

(** Every column of the table returned has [n] rows. *)
Definition loaded_rows {F32 : Type} (n : nat) (out : patient_info F32)
  : Prop :=
  List.length (index out) = n
  /\ List.length (o_sex out) = n
  /\ List.length (o_age out) = n
  /\ List.length (o_country out) = n
  /\ List.length (o_province out) = n
  /\ List.length (o_city out) = n
  /\ List.length (o_infection_case out) = n
  /\ List.length (o_infected_by out) = n
  /\ List.length (o_contact_number out) = n
  /\ List.length (o_symptom_onset_date out) = n
  /\ List.length (o_confirmed_date out) = n
  /\ List.length (o_released_date out) = n
  /\ List.length (o_deceased_date out) = n
  /\ List.length (o_state out) = n
  /\ List.length (age_category out) = n
  /\ List.length (symptom_to_confirmed out) = n
  /\ List.length (confirmed_to_released out) = n
  /\ List.length (confirmed_to_deceased out) = n.

(** [int(s)] on a decimal spelling. *)
Definition int_of_str (s : string) : option Z :=
  option_map Z.of_int (NilEmpty.int_of_string s).

(** [d] is the whole number of days in the difference [x - y], rounded
    down. *)
Definition whole_days (x y d : Z) : Prop :=
  d * ns_per_day <= x - y < (d + 1) * ns_per_day.

(** Row [i] of the interval column [ys] is the difference of the two dates
    in whole days, rounded down: not negative exactly when [dst] is not
    before [src], and small enough for single precision. *)
Definition rounds_down (dst src ys : list (option Z)) (i : nat) : Prop :=
  forall x y,
    nth_error dst i = Some (Some x) ->
    nth_error src i = Some (Some y) ->
    exists d,
      nth_error ys i = Some (Some d)
      /\ whole_days x y d
      /\ (0 <= d <-> y <= x)
      /\ - 2 ^ 24 < d < 2 ^ 24.

(** The ages of each bucket, as the loader files them. *)
Definition filed_young : list string := ["0s"; "10s"; "20s"; "100s"].
Definition filed_middle : list string := ["30s"; "40s"; "50s"].
Definition filed_old : list string := ["60s"; "70s"; "80s"; "90s"].

Definition age_among (ages : list string) (a : option string) : Prop :=
  exists s, a = Some s /\ In s ages.

End PatientSpec.

Module TimeSeriesMoreSpec.
Import TimeSeries TimeSeriesSpec.

(** The entries of the rows whose key is [k], in row order. *)
Fixpoint rows_of {A : Type} (k : cell) (keys : list cell) (xs : list A)
  : list A :=
  match keys, xs with
  | k' :: keys', x :: xs' =>
      if cell_eqb k' k then x :: rows_of k keys' xs' else rows_of k keys' xs'
  | _, _ => []
  end.

(** A column never decreases along the rows, starting from [prev]. *)
Fixpoint never_decreases (prev : Z) (xs : list Z) : Prop :=
  match xs with
  | [] => True
  | x :: xs' => prev <= x /\ never_decreases x xs'
  end.

End TimeSeriesMoreSpec.

Module MoreExamples.
Import TimeSeries.

(** A cases table whose second row carries the sentinel in [longitude]
    only. *)
Definition half_sentinel : Cases.cases_csv Z :=
  {| Cases.case_id := [1000001; 1000036];
     Cases.province := [Some "Seoul"; Some "Seoul"];
     Cases.city := [Some "Yongsan-gu"; Some "from other city"];
     Cases.group := [true; true];
     Cases.infection_case := [Some "Itaewon Clubs";
                              Some "Shincheonji Church"];
     Cases.confirmed := [139; 8];
     Cases.latitude := Object [Some "37"; Some "38"];
     Cases.longitude := Object [Some "126"; Some "-"] |}.

(** A cases table whose coordinates were all read as numbers. *)
Definition numeric_coordinates : Cases.cases_csv Z :=
  {| Cases.case_id := [1000001; 1000036];
     Cases.province := [Some "Seoul"; Some "Seoul"];
     Cases.city := [Some "Yongsan-gu"; Some "-"];
     Cases.group := [true; true];
     Cases.infection_case := [Some "Itaewon Clubs";
                              Some "Shincheonji Church"];
     Cases.confirmed := [139; 8];
     Cases.latitude := Numeric [Some 37; None];
     Cases.longitude := Numeric [Some 126; Some 127] |}.

Definition numeric_coordinates_loaded : Cases.cases Z :=
  {| Cases.o_case_id := ["1000001"; "1000036"];
     Cases.o_province := [Some "Seoul"; Some "Seoul"];
     Cases.o_city := [Some "Yongsan-gu"; Some "Seoul"];
     Cases.o_group := [true; true];
     Cases.o_infection_case := [Some "Itaewon Clubs";
                                Some "Shincheonji Church"];
     Cases.o_confirmed := [139; 8];
     Cases.o_latitude := [Some 37; None];
     Cases.o_longitude := [Some 126; Some 127];
     Cases.sub_city := [Some "Yongsan-gu"; Some "Seoul"] |}.

(** The patient table of the examples, with the columns [read_csv] could
    parse: every symptom-onset date clean, every contact number a number. *)
Definition clean_patients : Patient.patient_csv Z :=
  {| Patient.patient_id := [1000000001; 1000000002];
     Patient.sex := [Some "male"; Some "female"];
     Patient.age := [Some "10s"; Some "30s"];
     Patient.country := [Some "Korea"; Some "Korea"];
     Patient.province := [Some "Seoul"; Some "Seoul"];
     Patient.city := [Some "Gangseo-gu"; Some "Jungnang-gu"];
     Patient.infection_case := [Some "overseas inflow"; None];
     Patient.infected_by := [None; None];
     Patient.contact_number := Object [Some "75"; Some "3"];
     Patient.symptom_onset_date :=
       Datetime [Some (Patient.date 2020 1 5); Some (Patient.date 2020 1 8)];
     Patient.confirmed_date := [Some (Patient.date 2020 1 10);
                                Some (Patient.date 2020 1 10)];
     Patient.released_date := [Some (Patient.date 2020 1 20); None];
     Patient.deceased_date := [None; Some (Patient.date 2020 2 19)];
     Patient.state := [Some "released"; Some "deceased"] |}.

(** The same with symptom-onset dates left as text and the contact numbers
    read as numbers. *)
Definition numeric_contacts : Patient.patient_csv Z :=
  {| Patient.patient_id := [1000000001; 1000000002];
     Patient.sex := [Some "male"; Some "female"];
     Patient.age := [Some "10s"; Some "30s"];
     Patient.country := [Some "Korea"; Some "Korea"];
     Patient.province := [Some "Seoul"; Some "Seoul"];
     Patient.city := [Some "Gangseo-gu"; Some "Jungnang-gu"];
     Patient.infection_case := [Some "overseas inflow"; None];
     Patient.infected_by := [None; None];
     Patient.contact_number := Numeric [Some 75; Some 3];
     Patient.symptom_onset_date := Text [Some " 2020-01-05"; Some " "];
     Patient.confirmed_date := [Some (Patient.date 2020 1 10);
                                Some (Patient.date 2020 1 10)];
     Patient.released_date := [Some (Patient.date 2020 1 20); None];
     Patient.deceased_date := [None; Some (Patient.date 2020 2 19)];
     Patient.state := [Some "released"; Some "deceased"] |}.

(** Accumulated counts of three days with a column of one constant
    label. *)
Definition time_one_group : frame cell :=
  {| index := [Str "2020-01-20"; Str "2020-01-21"; Str "2020-01-22"];
     columns := [("country", [Str "Korea"; Str "Korea"; Str "Korea"]);
                 ("confirmed", [Int 10; Int 15; Int 23]);
                 ("deceased", [Int 0; Int 1; Int 3])] |}.

(** A table of the second file an analysis expands, with the same column
    names. *)
Definition time_again : frame cell :=
  {| index := [Str "2020-02-01"; Str "2020-02-02"];
     columns := [("confirmed", [Int 12; Int 15]);
                 ("deceased", [Int 0; Int 0])] |}.

End MoreExamples.

(** * Properties of the primitives *)

Module PyFacts.

Lemma bind_ok {A B : Type} (r : result A) (k : A -> result B) (b : B) :
  Py.bind r k = Ok b -> exists a, r = Ok a /\ k a = Ok b.
Proof.
  destruct r as [a | e]; simpl; intros H.
  - exists a. split; [reflexivity | exact H].
  - discriminate H.
Qed.

Lemma bind_raise {A B : Type} (r : result A) (k : A -> result B) (e : exn) :
  Py.bind r k = Raise e ->
  r = Raise e \/ exists a, r = Ok a /\ k a = Raise e.
Proof.
  destruct r as [a | e']; simpl; intros H.
  - right. exists a. split; [reflexivity | exact H].
  - left. injection H as ->. reflexivity.
Qed.

Ltac unbind H :=
  let a := fresh "a" in
  let Ha := fresh "H" a in
  apply bind_ok in H; destruct H as (a & Ha & H).

Section Traverse.
Context {A B : Type}.
Variable f : A -> result B.

Lemma traverse_cons_ok x xs ys :
  Py.traverse f (x :: xs) = Ok ys ->
  exists y ys', f x = Ok y /\ Py.traverse f xs = Ok ys' /\ ys = y :: ys'.
Proof.
  simpl. intros H. unbind H. unbind H.
  injection H as <-. eauto.
Qed.

Lemma traverse_length xs : forall ys,
  Py.traverse f xs = Ok ys -> List.length ys = List.length xs.
Proof.
  induction xs as [| x xs IH]; intros ys H.
  - injection H as <-. reflexivity.
  - apply traverse_cons_ok in H. destruct H as (y & ys' & _ & H & ->).
    simpl. f_equal. apply IH, H.
Qed.

Lemma traverse_nth xs : forall ys i x,
  Py.traverse f xs = Ok ys -> nth_error xs i = Some x ->
  exists y, f x = Ok y /\ nth_error ys i = Some y.
Proof.
  induction xs as [| x0 xs IH]; intros ys i x H Hx.
  - destruct i; discriminate Hx.
  - apply traverse_cons_ok in H. destruct H as (y & ys' & Hy & H & ->).
    destruct i as [| i]; simpl in Hx.
    + injection Hx as <-. exists y. split; [exact Hy | reflexivity].
    + simpl. eapply IH; eassumption.
Qed.

Lemma traverse_map (g : A -> B) xs :
  (forall x, In x xs -> f x = Ok (g x)) ->
  Py.traverse f xs = Ok (map g xs).
Proof.
  induction xs as [| x xs IH]; intros H; simpl.
  - reflexivity.
  - rewrite (H x (or_introl eq_refl)). simpl.
    rewrite IH by (intros y Hy; apply H; right; exact Hy).
    reflexivity.
Qed.

Lemma traverse_raise (e0 : exn) xs : forall e,
  (forall x e', In x xs -> f x = Raise e' -> e' = e0) ->
  Py.traverse f xs = Raise e -> e = e0.
Proof.
  induction xs as [| x xs IH]; intros e Hf H; simpl in H.
  - discriminate H.
  - apply bind_raise in H. destruct H as [H | (y & Hy & H)].
    + eapply Hf; [left; reflexivity | exact H].
    + apply bind_raise in H. destruct H as [H | (ys & _ & H)].
      * apply IH; [| exact H]. intros z e' Hz. apply Hf. right. exact Hz.
      * discriminate H.
Qed.
End Traverse.

Lemma nan_where_nth {A : Type} (mask : list bool) :
  forall (xs : list (option A)) i m x,
    nth_error mask i = Some m -> nth_error xs i = Some x ->
    nth_error (Py.nan_where mask xs) i = Some (if m then None else x).
Proof.
  induction mask as [| m0 mask IH]; intros xs i m x Hm Hx.
  - destruct i; discriminate Hm.
  - destruct xs as [| x0 xs]; [destruct i; discriminate Hx |].
    destruct i as [| i]; simpl in *.
    + injection Hm as <-. injection Hx as <-. reflexivity.
    + apply IH; assumption.
Qed.

Lemma nan_where_length {A : Type} (mask : list bool) :
  forall xs : list (option A),
    List.length (Py.nan_where mask xs) = List.length xs.
Proof.
  induction mask as [| m mask IH]; intros [| x xs]; simpl; try reflexivity.
  f_equal. apply IH.
Qed.

Lemma assign_where_nth {A : Type} (mask : list bool) :
  forall (xs ys : list A) i m x y,
    nth_error mask i = Some m -> nth_error xs i = Some x ->
    nth_error ys i = Some y ->
    nth_error (Py.assign_where mask xs ys) i = Some (if m then y else x).
Proof.
  induction mask as [| m0 mask IH]; intros xs ys i m x y Hm Hx Hy.
  - destruct i; discriminate Hm.
  - destruct xs as [| x0 xs]; [destruct i; discriminate Hx |].
    destruct ys as [| y0 ys]; [destruct i; discriminate Hy |].
    destruct i as [| i]; simpl in *.
    + injection Hm as <-. injection Hx as <-. injection Hy as <-.
      reflexivity.
    + apply IH; assumption.
Qed.

(** [strip] removes a blank prefix and a blank suffix, and nothing else. *)
Lemma lstrip_decompose (s : string) :
  exists l, s = (l ++ Py.lstrip s)%string /\ Py.blank l = true.
Proof.
  induction s as [| c s IH]; simpl.
  - exists EmptyString. split; reflexivity.
  - destruct (Py.isspace c) eqn:Hc.
    + destruct IH as (l & Hs & Hl). exists (String c l). simpl.
      rewrite Hc, Hl. split; [f_equal; exact Hs | reflexivity].
    + exists EmptyString. split; reflexivity.
Qed.

Lemma rstrip_decompose (s : string) :
  exists r, s = (Py.rstrip s ++ r)%string /\ Py.blank r = true.
Proof.
  induction s as [| c s IH]; simpl.
  - exists EmptyString. split; reflexivity.
  - destruct IH as (r & Hs & Hr).
    destruct (Py.rstrip s) as [| c' t] eqn:Ht.
    + destruct (Py.isspace c) eqn:Hc.
      * exists (String c r). simpl in *. rewrite Hc, Hr.
        split; [f_equal; exact Hs | reflexivity].
      * exists r. simpl in *. split; [f_equal; exact Hs | exact Hr].
    + exists r. split; [simpl; f_equal; exact Hs | exact Hr].
Qed.

Lemma strip_decompose (s : string) :
  exists l r, s = (l ++ Py.strip s ++ r)%string
              /\ Py.blank l = true /\ Py.blank r = true.
Proof.
  destruct (lstrip_decompose s) as (l & Hl & Bl).
  destruct (rstrip_decompose (Py.lstrip s)) as (r & Hr & Br).
  exists l, r. unfold Py.strip. rewrite <- Hr, <- Hl. auto.
Qed.

Lemma lstrip_starts (s : string) : Py.starts_blank (Py.lstrip s) = false.
Proof.
  induction s as [| c s IH]; simpl; [reflexivity |].
  destruct (Py.isspace c) eqn:Hc; [exact IH | simpl; exact Hc].
Qed.

Lemma rstrip_ends (s : string) : Py.ends_blank (Py.rstrip s) = false.
Proof.
  induction s as [| c s IH]; simpl; [reflexivity |].
  destruct (Py.rstrip s) as [| c' t] eqn:Ht.
  - destruct (Py.isspace c) eqn:Hc; simpl; [reflexivity | exact Hc].
  - exact IH.
Qed.

Lemma rstrip_starts (s : string) :
  Py.starts_blank s = false -> Py.starts_blank (Py.rstrip s) = false.
Proof.
  destruct s as [| c s]; simpl; [reflexivity |]. intros Hc.
  destruct (Py.rstrip s); [rewrite Hc |]; simpl; try reflexivity; exact Hc.
Qed.

(** What [strip] returns neither starts nor ends with whitespace. *)
Lemma strip_trimmed (s : string) :
  Py.starts_blank (Py.strip s) = false /\ Py.ends_blank (Py.strip s) = false.
Proof.
  unfold Py.strip. split.
  - apply rstrip_starts, lstrip_starts.
  - apply rstrip_ends.
Qed.

End PyFacts.

(** * The cases loader *)

Module CasesFacts.
Import Cases PyFacts.

Lemma eq_str_true (v : string) (x : option string) :
  Py.eq_str v x = true <-> x = Some v.
Proof.
  destruct x as [s |]; simpl.
  - rewrite String.eqb_eq. split; [intros -> | intros [= ->]]; reflexivity.
  - split; discriminate.
Qed.

Lemma eq_str_false (v : string) (x : option string) :
  Py.eq_str v x = false <-> x <> Some v.
Proof.
  rewrite <- eq_str_true. destruct (Py.eq_str v x); split; congruence.
Qed.

Section Loader.
Variable F : Type.
Variable float_of_str : string -> option (option F).

Lemma astype_float_nulled (mask : list bool) (c : column F) ys i :
  astype_float float_of_str (set_nan mask c) = Ok ys ->
  nth_error mask i = Some true ->
  (i < size c)%nat ->
  nth_error ys i = Some None.
Proof.
  intros H Hm Hi.
  destruct c as [xs | xs]; simpl in *.
  - injection H as <-.
    destruct (nth_error xs i) as [x |] eqn:Hx.
    + apply (nan_where_nth _ _ _ Hm Hx).
    + apply nth_error_None in Hx. lia.
  - destruct (nth_error xs i) as [x |] eqn:Hx.
    + pose proof (nan_where_nth _ _ _ Hm Hx) as Hn.
      destruct (traverse_nth _ _ _ H Hn) as (y & Hy & Hys).
      simpl in Hy. injection Hy as <-. exact Hys.
    + apply nth_error_None in Hx. lia.
Qed.

(** C5.  In a loaded cases table, a row whose latitude was read as the
    sentinel ["-"] has both its latitude and its longitude missing. *)
Theorem sentinel_latitude_nulls_coordinates
        (df : cases_csv F) (out : cases F)
        (lats : list (option string)) (i : nat) :
  load_cases_data float_of_str df = Ok out ->
  latitude df = Object lats ->
  nth_error lats i = Some (Some "-") ->
  (i < size (longitude df))%nat ->
  nth_error (o_latitude out) i = Some None
  /\ nth_error (o_longitude out) i = Some None.
Proof.
  intros H Hlat Hi Hlon.
  unfold load_cases_data in H. rewrite Hlat in H.
  unbind H. unbind H. injection H as <-. simpl.
  assert (Hm : nth_error (eq_mask "-" (@Object F lats)) i = Some true).
  { simpl. rewrite nth_error_map, Hi. reflexivity. }
  split.
  - eapply astype_float_nulled; [eassumption | exact Hm |].
    simpl. apply nth_error_Some. congruence.
  - eapply astype_float_nulled; [eassumption | exact Hm | exact Hlon].
Qed.

(** C6.  In a loaded cases table, the city of a row is the province when
    the city was read as ["-"] and the city read otherwise; [sub_city] is
    the province when that city is ["from other city"] and that city
    otherwise. *)
Theorem city_and_sub_city_substitution
        (df : cases_csv F) (out : cases F) (i : nat) (c p : option string) :
  load_cases_data float_of_str df = Ok out ->
  nth_error (city df) i = Some c ->
  nth_error (province df) i = Some p ->
  exists c' sc,
    nth_error (o_city out) i = Some c'
    /\ nth_error (sub_city out) i = Some sc
    /\ (c = Some "-" -> c' = p)
    /\ (c <> Some "-" -> c' = c)
    /\ (c' = Some "from other city" -> sc = p)
    /\ (c' <> Some "from other city" -> sc = c').
Proof.
  intros H Hc Hp.
  unfold load_cases_data in H. unbind H. unbind H. injection H as <-. simpl.
  set (city1 := Py.assign_where (map (Py.eq_str "-") (city df)) (city df)
                                (province df)).
  assert (H1 : nth_error city1 i = Some (if Py.eq_str "-" c then p else c)).
  { apply assign_where_nth; [| exact Hc | exact Hp].
    rewrite nth_error_map, Hc. reflexivity. }
  set (c' := if Py.eq_str "-" c then p else c) in *.
  exists c', (if Py.eq_str "from other city" c' then p else c').
  split; [exact H1 |]. split.
  { apply assign_where_nth; [| exact H1 | exact Hp].
    rewrite nth_error_map, H1. reflexivity. }
  subst c'. repeat split.
  - intros E. apply eq_str_true in E. rewrite E. reflexivity.
  - intros E. apply eq_str_false in E. rewrite E. reflexivity.
  - intros E. apply eq_str_true in E. rewrite E. reflexivity.
  - intros E. apply eq_str_false in E. rewrite E. reflexivity.
Qed.

End Loader.

(** Row 1 of the example table carries the sentinel. *)
Lemma sentinel_latitude_witness :
  nth_error (o_latitude Examples.infection_cases_loaded) 1 = Some None
  /\ nth_error (o_longitude Examples.infection_cases_loaded) 1 = Some None.
Proof.
  apply (@sentinel_latitude_nulls_coordinates
           Z Examples.plain_number Examples.infection_cases
           Examples.infection_cases_loaded
           [Some "37"; Some "-"; Some "-"] 1%nat).
  - reflexivity.
  - reflexivity.
  - reflexivity.
  - simpl. lia.
Defined.

(** Row 2 of the example table has no city, row 1 is from another city. *)
Lemma city_substitution_witness :
  exists c' sc,
    nth_error (o_city Examples.infection_cases_loaded) 2 = Some c'
    /\ nth_error (sub_city Examples.infection_cases_loaded) 2 = Some sc
    /\ (Some "-" = Some "-" -> c' = Some "Daegu")
    /\ (Some "-" <> Some "-" -> c' = Some "-")
    /\ (c' = Some "from other city" -> sc = Some "Daegu")
    /\ (c' <> Some "from other city" -> sc = c').
Proof.
  apply (@city_and_sub_city_substitution
           Z Examples.plain_number Examples.infection_cases
           Examples.infection_cases_loaded 2%nat (Some "-") (Some "Daegu")).
  - reflexivity.
  - reflexivity.
  - reflexivity.
Defined.

End CasesFacts.

(** * The patient loader *)

Module PatientFacts.
Import Patient PyFacts.

Lemma position_absent (s : string) (scale : list string) :
  existsb (String.eqb s) scale = false -> position s scale = None.
Proof.
  induction scale as [| c scale IH]; simpl; [reflexivity |].
  destruct (String.eqb s c); simpl; [discriminate |].
  intros H. rewrite (IH H). reflexivity.
Qed.

(** On every age but ["100s"], and on a missing age, the loader's bucket is
    the bucket of the ordered decade scale. *)
Lemma age_category_agrees (a : option string) :
  a <> Some "100s" ->
  assign_age_category (astype_category age_categories a) = age_category_spec a.
Proof.
  intros Ha. destruct a as [s |]; [| reflexivity].
  unfold astype_category.
  destruct (existsb (String.eqb s) age_categories) eqn:E.
  - apply existsb_exists in E. destruct E as (c & Hin & Hc).
    apply String.eqb_eq in Hc. subst c.
    simpl in Hin.
    repeat (destruct Hin as [<- | Hin]; [try reflexivity |]);
      contradiction.
  - unfold age_category_spec. rewrite (position_absent _ _ E). reflexivity.
Qed.

(** The bucket is one of the three categories, so the cast to the ordered
    categorical keeps it. *)
Lemma assign_age_category_kept (x : option string) :
  astype_category age_category_names (assign_age_category x)
  = assign_age_category x.
Proof.
  destruct x as [s |]; simpl; [| reflexivity].
  destruct (Py.str_le s "20s"); [reflexivity |].
  destruct (Py.str_le s "50s"); reflexivity.
Qed.

Lemma nth_error_combine {A B : Type} (xs : list A) :
  forall (ys : list B) i x y,
    nth_error xs i = Some x -> nth_error ys i = Some y ->
    nth_error (combine xs ys) i = Some (x, y).
Proof.
  induction xs as [| x0 xs IH]; intros ys i x y Hx Hy.
  - destruct i; discriminate Hx.
  - destruct ys as [| y0 ys]; [destruct i; discriminate Hy |].
    destruct i as [| i]; simpl in *.
    + congruence.
    + apply IH; assumption.
Qed.

Lemma interval_ok (a b d : option Z) :
  interval a b = Ok d -> d = day_count a b.
Proof.
  unfold interval, sub_timestamp, day_count.
  destruct a as [x |], b as [y |]; simpl; try congruence.
  destruct (int64_ok (x - y)); simpl; congruence.
Qed.

(** A day count is below [2 ^ 24] in magnitude: the cast of the interval
    columns to single precision rounds nothing. *)
Lemma interval_fits_float32 (a b : option Z) (d : Z) :
  interval a b = Ok (Some d) -> - 2 ^ 24 < d < 2 ^ 24.
Proof.
  unfold interval, sub_timestamp.
  destruct a as [x |], b as [y |]; simpl; try discriminate.
  destruct (int64_ok (x - y)) eqn:E; simpl; [| discriminate].
  intros [= <-]. unfold int64_ok in E.
  apply andb_true_iff in E. destruct E as [E1 E2].
  apply Z.ltb_lt in E1, E2. unfold ns_per_day.
  change (2 ^ 63) with 9223372036854775808 in *.
  change (2 ^ 24) with 16777216.
  change (86400 * 1000000000) with 86400000000000.
  split.
  - apply Z.lt_le_trans with (- 9223372036854775808 / 86400000000000).
    + reflexivity.
    + apply Z.div_le_mono; lia.
  - apply Z.le_lt_trans with (9223372036854775808 / 86400000000000).
    + apply Z.div_le_mono; lia.
    + reflexivity.
Qed.

Lemma intervals_nth (dst src ys : list (option Z)) (i : nat) (a b : option Z) :
  intervals dst src = Ok ys ->
  nth_error dst i = Some a -> nth_error src i = Some b ->
  nth_error ys i = Some (day_count a b).
Proof.
  intros H Ha Hb. unfold intervals in H.
  pose proof (nth_error_combine _ _ _ Ha Hb) as Hab.
  destruct (traverse_nth _ _ _ H Hab) as (y & Hy & Hys).
  simpl in Hy. apply interval_ok in Hy. congruence.
Qed.



Section Loader.
Variables F64 F32 : Type.
Variable float_of_str : string -> option (option F32).
Variable to_datetime : string -> option (option Z).

(** What a loaded table holds in the [age] and [age_category] columns. *)
Lemma age_category_row (df : patient_csv F64) (out : patient_info F32)
      (i : nat) (a : option string) :
  load_patient_info float_of_str to_datetime df = Ok out ->
  nth_error (age df) i = Some a ->
  nth_error (o_age out) i = Some (astype_category age_categories a)
  /\ nth_error (age_category out) i
     = Some (assign_age_category (astype_category age_categories a)).
Proof.
  intros H Ha. unfold load_patient_info in H.
  do 6 unbind H. injection H as <-. simpl.
  rewrite !nth_error_map, Ha. simpl.
  rewrite assign_age_category_kept. split; reflexivity.
Qed.

(** C1.  The loader files a patient aged ["100s"] under ["young"], where
    the ordered decade scale has ["100s"] above ["50s"], hence ["old"]. *)
Theorem age_100s_is_filed_young :
  exists out,
    load_patient_info float_of_str to_datetime (Examples.centenarian F64)
    = Ok out
    /\ o_age out = [Some "100s"]
    /\ age_category out = [Some "young"]
    /\ age_category_spec (Some "100s") = Some "old".
Proof.
  eexists. split; [reflexivity |]. repeat split.
Qed.

(** C7.  In a loaded table each interval column holds, row by row, the
    difference of its two dates in whole days, and a missing value where
    either date is missing. *)
Theorem intervals_are_day_counts
        (df : patient_csv F64) (out : patient_info F32) (i : nat) :
  load_patient_info float_of_str to_datetime df = Ok out ->
  (forall a b,
      nth_error (confirmed_date df) i = Some a ->
      nth_error (o_symptom_onset_date out) i = Some b ->
      nth_error (symptom_to_confirmed out) i = Some (day_count a b))
  /\ (forall a b,
         nth_error (released_date df) i = Some a ->
         nth_error (confirmed_date df) i = Some b ->
         nth_error (confirmed_to_released out) i = Some (day_count a b))
  /\ (forall a b,
         nth_error (deceased_date df) i = Some a ->
         nth_error (confirmed_date df) i = Some b ->
         nth_error (confirmed_to_deceased out) i = Some (day_count a b)).
Proof.
  intros H. unfold load_patient_info in H.
  do 6 unbind H. injection H as <-. simpl.
  repeat split; intros dst src Hdst Hsrc; eapply intervals_nth; eassumption.
Qed.

Lemma clean_contact_number_object (cs : list (option string)) :
  clean_contact_number (@Object F64 cs) = Ok (Object (map kept_contact cs)).
Proof.
  unfold clean_contact_number. simpl. do 2 f_equal.
  induction cs as [| c cs IH]; simpl; [reflexivity |].
  rewrite IH. f_equal.
  destruct c as [s |]; simpl; [| reflexivity].
  destruct (String.eqb s "-"); simpl; [reflexivity |].
  destruct (Nat.eqb (String.length s) 10); reflexivity.
Qed.







End Loader.

(** Patient 0 of the example table: confirmed on 2020-01-10 and released on
    2020-01-20, ten days later. *)
Lemma intervals_witness :
  nth_error (confirmed_to_released Examples.patients_loaded) 0
  = Some (Some 10).
Proof.
  apply (proj1 (proj2 (@intervals_are_day_counts
                         Z Z Examples.plain_number Examples.iso_date
                         Examples.patients Examples.patients_loaded 0%nat
                         eq_refl))
               (Some (date 2020 1 20)) (Some (date 2020 1 10))).
  - reflexivity.
  - reflexivity.
Defined.




End PatientFacts.

(** * The timeseries expander *)

Module TimeSeriesFacts.
Import TimeSeries TimeSeriesSpec PyFacts.

(** ** Columns by name *)

Lemma append_eqb (p a b : string) :
  String.eqb (p ++ a) (p ++ b) = String.eqb a b.
Proof.
  induction p as [| c p IH]; simpl; [reflexivity |].
  rewrite Ascii.eqb_refl. exact IH.
Qed.

Lemma append_inj (p a b : string) : (p ++ a = p ++ b)%string -> a = b.
Proof.
  intros H. apply String.eqb_eq. rewrite <- (append_eqb p).
  apply String.eqb_eq. exact H.
Qed.

Lemma mem_In (s : string) (l : list string) : mem s l = true <-> In s l.
Proof.
  unfold mem. rewrite existsb_exists. split.
  - intros (x & Hx & E). apply String.eqb_eq in E. subst x. exact Hx.
  - intros H. exists s. split; [exact H | apply String.eqb_refl].
Qed.

Lemma mem_not_In (s : string) (l : list string) :
  mem s l = false <-> ~ In s l.
Proof.
  rewrite <- mem_In. destruct (mem s l); split; congruence.
Qed.

Section Lookup.
Context {A : Type}.
Implicit Types cols : list (string * list A).

Lemma lookup_In n cols c : lookup n cols = Some c -> In (n, c) cols.
Proof.
  induction cols as [| [m x] cols IH]; simpl; [discriminate |].
  destruct (String.eqb m n) eqn:E.
  - apply String.eqb_eq in E. subst m. intros [= ->]. left. reflexivity.
  - intros H. right. apply IH, H.
Qed.

Lemma lookup_absent n cols : lookup n cols = None <-> ~ In n (names cols).
Proof.
  induction cols as [| [m x] cols IH]; simpl.
  - tauto.
  - destruct (String.eqb m n) eqn:E.
    + apply String.eqb_eq in E. subst m. split; [discriminate | tauto].
    + apply String.eqb_neq in E. rewrite IH. tauto.
Qed.

Lemma lookup_app n cols cols' :
  lookup n (cols ++ cols')
  = match lookup n cols with
    | Some c => Some c
    | None => lookup n cols'
    end.
Proof.
  induction cols as [| [m x] cols IH]; simpl; [reflexivity |].
  destruct (String.eqb m n); [reflexivity | exact IH].
Qed.

Lemma lookup_setitem_other n r col cols :
  n <> r -> lookup n (setitem r col cols) = lookup n cols.
Proof.
  intros Hn. induction cols as [| [m x] cols IH]; simpl.
  - apply String.eqb_neq in Hn. rewrite String.eqb_sym, Hn. reflexivity.
  - destruct (String.eqb m r) eqn:E; simpl.
    + apply String.eqb_eq in E. subst m.
      assert (E : String.eqb r n = false)
        by (apply String.eqb_neq; congruence).
      rewrite E. reflexivity.
    + destruct (String.eqb m n); [reflexivity | exact IH].
Qed.

Lemma setitem_new r col cols :
  ~ In r (names cols) -> setitem r col cols = cols ++ [(r, col)].
Proof.
  induction cols as [| [m x] cols IH]; simpl; intros H; [reflexivity |].
  destruct (String.eqb m r) eqn:E.
  - apply String.eqb_eq in E. tauto.
  - f_equal. apply IH. tauto.
Qed.

Lemma lookup_add_prefix p n cols :
  lookup (p ++ n) (add_prefix p cols) = lookup n cols.
Proof.
  induction cols as [| [m x] cols IH]; simpl; [reflexivity |].
  rewrite append_eqb. destruct (String.eqb m n); [reflexivity | exact IH].
Qed.

Lemma names_add_prefix p cols :
  names (add_prefix p cols) = map (String.append p) (names cols).
Proof.
  unfold names, add_prefix. rewrite !map_map. reflexivity.
Qed.
End Lookup.

Lemma lookup_map {A B : Type} (g : list A -> list B) n
      (cols : list (string * list A)) :
  lookup n (map (fun nc => (fst nc, g (snd nc))) cols)
  = option_map g (lookup n cols).
Proof.
  induction cols as [| [m x] cols IH]; simpl; [reflexivity |].
  destruct (String.eqb m n); [reflexivity | exact IH].
Qed.

Lemma on_columns_lookup {A B : Type} (f : list A -> result (list B)) n
      (cols : list (string * list A)) :
  forall out xs,
    on_columns f cols = Ok out -> lookup n cols = Some xs ->
    exists y, f xs = Ok y /\ lookup n out = Some y.
Proof.
  unfold on_columns.
  induction cols as [| [m x] cols IH]; intros out xs H Hn;
    [discriminate Hn |].
  apply traverse_cons_ok in H. destruct H as (y & out' & Hy & H & ->).
  simpl in Hy. unbind Hy. injection Hy as <-. simpl in *.
  destruct (String.eqb m n).
  - injection Hn as <-. eauto.
  - eapply IH; eassumption.
Qed.

Lemma on_columns_raise {A B : Type} (f : list A -> result (list B))
      (e0 : exn) (cols : list (string * list A)) (e : exn) :
  (forall xs e', f xs = Raise e' -> e' = e0) ->
  on_columns f cols = Raise e -> e = e0.
Proof.
  intros Hf. unfold on_columns. apply traverse_raise.
  intros [n xs] e' _ H. simpl in H.
  apply bind_raise in H. destruct H as [H | (y & _ & H)].
  - eapply Hf, H.
  - discriminate H.
Qed.


(** A selection holds, under each selected name, the column of that
    name. *)
Lemma select_lookup {A : Type} (cols : list (string * list A))
      (names : list string) :
  forall sel c,
    select names cols = Ok sel -> In c names ->
    exists xs, lookup c cols = Some xs /\ lookup c sel = Some xs.
Proof.
  unfold select.
  induction names as [| n names IH]; intros sel c H Hc; [destruct Hc |].
  apply traverse_cons_ok in H. destruct H as (y & sel' & Hy & H & ->).
  unbind Hy. injection Hy as <-.
  unfold getitem in Ha. destruct (lookup n cols) as [xs |] eqn:Hn;
    [| discriminate].
  injection Ha as <-. simpl.
  destruct (String.eqb n c) eqn:E.
  - apply String.eqb_eq in E. subst c. eauto.
  - destruct Hc as [-> | Hc]; [rewrite String.eqb_refl in E; discriminate |].
    apply IH; assumption.
Qed.

Lemma select_rows {A : Type} (cols : list (string * list A)) (len : nat)
      (names : list string) :
  rows len cols ->
  forall sel, select names cols = Ok sel -> rows len sel.
Proof.
  intros Hl. unfold select, rows in *.
  induction names as [| n names IH]; intros sel H.
  - injection H as <-. constructor.
  - apply traverse_cons_ok in H. destruct H as (y & sel' & Hy & H & ->).
    unbind Hy. injection Hy as <-. constructor; [| apply IH, H].
    unfold getitem in Ha. destruct (lookup n cols) as [xs |] eqn:Hn;
      [| discriminate].
    injection Ha as <-. apply lookup_In in Hn.
    rewrite Forall_forall in Hl. apply (Hl _ Hn).
Qed.

Lemma lookup_fillna_frame n (cols other : list (string * list cell)) d :
  lookup n cols = Some d ->
  lookup n (fillna_frame cols other)
  = Some match lookup n other with
         | Some o => fillna d o
         | None => d
         end.
Proof.
  unfold fillna_frame.
  induction cols as [| [m x] cols IH]; simpl; [discriminate |].
  destruct (String.eqb m n) eqn:E.
  - apply String.eqb_eq in E. subst m. intros [= ->].
    destruct (lookup n other); simpl; rewrite String.eqb_refl; reflexivity.
  - intros H. destruct (lookup m other); simpl; rewrite E; apply IH, H.
Qed.

(** ** Differences *)

Lemma cell_eqb_eq (a b : cell) : cell_eqb a b = true -> a = b.
Proof.
  destruct a, b; simpl; try discriminate.
  - intros H. apply Z.eqb_eq in H. congruence.
  - intros H. apply String.eqb_eq in H. congruence.
Qed.

Lemma previous_counts (k : cell) (seen : list (cell * Z)) :
  previous k (map (fun kz => (fst kz, Int (snd kz))) seen)
  = option_map Int (previous k seen).
Proof.
  induction seen as [| [k' z] seen IH]; simpl; [reflexivity |].
  destruct (cell_eqb k' k); [reflexivity | exact IH].
Qed.

(** When the cast of the filled differences succeeds, the column held
    counts only, and the result is the per-group deltas of those counts. *)
Lemma grouped_diff_counts (keys : list cell) :
  forall (seen : list (cell * Z)) xs d ds,
    grouped_diff_from (map (fun kz => (fst kz, Int (snd kz))) seen) keys xs
    = Ok d ->
    List.length keys = List.length xs ->
    astype_int (fillna d xs) = Ok ds ->
    exists zs, xs = map Int zs /\ ds = grouped_deltas seen keys zs.
Proof.
  induction keys as [| k keys IH]; intros seen xs d ds H Hlen Hint.
  - destruct xs; [| discriminate Hlen]. injection H as <-.
    injection Hint as <-. exists []. split; reflexivity.
  - destruct xs as [| x xs]; [discriminate Hlen |].
    injection Hlen as Hlen. simpl in H. unbind H. unbind H.
    injection H as <-. rewrite previous_counts in Ha.
    assert (Hstep : forall z ds',
               astype_int (fillna a0 xs) = Ok ds' ->
               x = Int z ->
               exists zs', xs = map Int zs'
                           /\ ds' = grouped_deltas ((k, z) :: seen) keys zs').
    { intros z ds' Hds' ->. eapply (IH ((k, z) :: seen)); eassumption. }
    destruct (previous k seen) as [p |] eqn:Hprev; simpl in Ha.
    + destruct x as [z | | s]; simpl in Ha; try discriminate;
        injection Ha as <-; simpl in Hint;
        apply traverse_cons_ok in Hint;
        destruct Hint as (h & ds' & Hh & Hds' & ->); try discriminate Hh.
      injection Hh as <-.
      destruct (Hstep z ds' Hds' eq_refl) as (zs' & -> & ->).
      exists (z :: zs'). split; [reflexivity |]. simpl.
      rewrite Hprev. reflexivity.
    + injection Ha as <-.
      assert (Hint' : astype_int (x :: fillna a0 xs) = Ok ds)
        by (destruct x; exact Hint).
      apply traverse_cons_ok in Hint'.
      destruct Hint' as (h & ds' & Hh & Hds' & ->).
      destruct x as [z | | s]; try discriminate Hh. injection Hh as <-.
      destruct (Hstep z ds' Hds' eq_refl) as (zs' & -> & ->).
      exists (z :: zs'). split; [reflexivity |]. simpl.
      rewrite Hprev. reflexivity.
Qed.

(** Without groups the differences are those of one group holding every
    row. *)
Lemma diff_from_grouped (xs : list cell) :
  forall prev seen,
    previous (Int 0) seen = prev ->
    diff_from prev xs
    = grouped_diff_from seen (repeat (Int 0) (List.length xs)) xs.
Proof.
  induction xs as [| x xs IH]; intros prev seen Hprev; simpl.
  - reflexivity.
  - rewrite Hprev.
    rewrite (IH (Some x) ((Int 0, x) :: seen)) by reflexivity.
    reflexivity.
Qed.

Lemma grouped_deltas_one_group (zs : list Z) :
  forall seen p,
    previous (Int 0) seen = Some p ->
    grouped_deltas seen (repeat (Int 0) (List.length zs)) zs = deltas p zs.
Proof.
  induction zs as [| z zs IH]; intros seen p Hp; simpl.
  - reflexivity.
  - rewrite Hp. f_equal. apply IH. reflexivity.
Qed.

Lemma grouped_deltas_no_group (zs : list Z) :
  grouped_deltas [] (repeat (Int 0) (List.length zs)) zs = deltas 0 zs.
Proof.
  destruct zs as [| z zs]; simpl; [reflexivity |].
  rewrite Z.sub_0_r. f_equal. apply grouped_deltas_one_group. reflexivity.
Qed.

Lemma grouped_deltas_length (keys : list cell) :
  forall seen zs,
    List.length keys = List.length zs ->
    List.length (grouped_deltas seen keys zs) = List.length zs.
Proof.
  induction keys as [| k keys IH]; intros seen [| z zs] H; simpl;
    try reflexivity; try discriminate H.
  f_equal. apply IH. injection H as H. exact H.
Qed.

Lemma grouped_deltas_nth (keys : list cell) :
  forall seen zs i k z,
    nth_error keys i = Some k -> nth_error zs i = Some z ->
    nth_error (grouped_deltas seen keys zs) i
    = Some match
          previous k (rev (combine (firstn i keys) (firstn i zs)) ++ seen)
        with
        | None => z
        | Some p => z - p
        end.
Proof.
  induction keys as [| k0 keys IH]; intros seen zs i k z Hk Hz.
  - destruct i; discriminate Hk.
  - destruct zs as [| z0 zs]; [destruct i; discriminate Hz |].
    destruct i as [| i]; simpl in *.
    + injection Hk as <-. injection Hz as <-. reflexivity.
    + rewrite (IH _ _ _ _ _ Hk Hz), <- app_assoc. reflexivity.
Qed.

Section Previous.
Context {A : Type}.

Lemma previous_rev_none (k : cell) (l : list (cell * A)) :
  previous k (rev l) = None ->
  forall j kj x, nth_error l j = Some (kj, x) -> cell_eqb kj k = false.
Proof.
  induction l as [| [ka xa] l IH] using rev_ind; intros H j kj x Hj.
  - destruct j; discriminate Hj.
  - rewrite rev_unit in H. simpl in H.
    destruct (cell_eqb ka k) eqn:E; [discriminate |].
    destruct (Nat.lt_ge_cases j (List.length l)) as [Hlt | Hge].
    + rewrite nth_error_app1 in Hj by exact Hlt. eapply IH; eassumption.
    + rewrite nth_error_app2 in Hj by exact Hge.
      destruct (j - List.length l)%nat as [| n]; simpl in Hj.
      * injection Hj as <- <-. exact E.
      * destruct n; discriminate Hj.
Qed.

Lemma previous_rev_some (k : cell) (l : list (cell * A)) (p : A) :
  previous k (rev l) = Some p ->
  exists j kj,
    nth_error l j = Some (kj, p) /\ cell_eqb kj k = true
    /\ forall m km x,
        (j < m)%nat -> nth_error l m = Some (km, x) -> cell_eqb km k = false.
Proof.
  induction l as [| [ka xa] l IH] using rev_ind; intros H.
  - discriminate H.
  - rewrite rev_unit in H. simpl in H.
    destruct (cell_eqb ka k) eqn:E.
    + injection H as <-. exists (List.length l), ka. repeat split.
      * rewrite nth_error_app2 by lia. rewrite Nat.sub_diag. reflexivity.
      * exact E.
      * intros m km x Hm Hx. rewrite nth_error_app2 in Hx by lia.
        destruct (m - List.length l)%nat as [| n] eqn:Em; [lia |].
        destruct n; discriminate Hx.
    + destruct (IH H) as (j & kj & Hj & Hkj & Hlater).
      assert (Hjl : (j < List.length l)%nat)
        by (apply nth_error_Some; congruence).
      exists j, kj. repeat split.
      * rewrite nth_error_app1 by exact Hjl. exact Hj.
      * exact Hkj.
      * intros m km x Hm Hx.
        destruct (Nat.lt_ge_cases m (List.length l)) as [Hlt | Hge].
        -- rewrite nth_error_app1 in Hx by exact Hlt.
           eapply Hlater; eassumption.
        -- rewrite nth_error_app2 in Hx by exact Hge.
           destruct (m - List.length l)%nat as [| n]; simpl in Hx.
           ++ injection Hx as <- <-. exact E.
           ++ destruct n; discriminate Hx.
Qed.
End Previous.

Lemma nth_error_rows_before {A B : Type} (i : nat) :
  forall (xs : list A) (ys : list B) j x y,
    nth_error (combine (firstn i xs) (firstn i ys)) j = Some (x, y)
    <-> (j < i)%nat /\ nth_error xs j = Some x /\ nth_error ys j = Some y.
Proof.
  induction i as [| i IH]; intros xs ys j x y.
  - simpl. split.
    + destruct j; discriminate.
    + intros (H & _). lia.
  - destruct xs as [| x0 xs]; simpl.
    + split; [destruct j; discriminate |].
      intros (_ & H & _). destruct j; discriminate H.
    + destruct ys as [| y0 ys]; simpl.
      * split; [destruct j; discriminate |].
        intros (_ & _ & H). destruct j; discriminate H.
      * destruct j as [| j]; simpl.
        -- split.
           ++ intros [= <- <-]. repeat split. lia.
           ++ intros (_ & [= <-] & [= <-]). reflexivity.
        -- rewrite IH. split; intros (H1 & H2 & H3); repeat split;
             try assumption; lia.
Qed.

(** The per-group deltas are the first difference of the specification. *)
Lemma grouped_deltas_first_difference (keys : list cell) (zs : list Z) :
  List.length keys = List.length zs ->
  first_difference keys zs (grouped_deltas [] keys zs).
Proof.
  intros Hlen. split; [apply grouped_deltas_length, Hlen |].
  intros i x d Hx Hd.
  assert (Hi : (i < List.length keys)%nat).
  { rewrite Hlen. apply nth_error_Some. congruence. }
  destruct (nth_error keys i) as [k |] eqn:Hk;
    [| apply nth_error_None in Hk; lia].
  rewrite (grouped_deltas_nth _ _ _ _ Hk Hx), app_nil_r in Hd.
  injection Hd as Hd.
  set (l := combine (firstn i keys) (firstn i zs)) in *.
  split.
  - intros Hfirst.
    destruct (previous k (rev l)) as [p |] eqn:E; [| congruence].
    apply previous_rev_some in E.
    destruct E as (j & kj & Hj & Hkj & _).
    apply nth_error_rows_before in Hj. destruct Hj as (Hji & Hkeyj & _).
    specialize (Hfirst j Hji). unfold same_group in Hfirst.
    rewrite Hkeyj, Hk in Hfirst. congruence.
  - intros j y (Hji & Hsame & Hbetween) Hy.
    unfold same_group in Hsame. rewrite Hk in Hsame.
    destruct (nth_error keys j) as [kj |] eqn:Hkeyj; [| discriminate].
    assert (Hlj : nth_error l j = Some (kj, y))
      by (apply nth_error_rows_before; auto).
    destruct (previous k (rev l)) as [p |] eqn:E.
    + apply previous_rev_some in E.
      destruct E as (j' & kj' & Hj' & Hkj' & Hlater).
      pose proof Hj' as Hrow. apply nth_error_rows_before in Hrow.
      destruct Hrow as (Hj'i & Hkeyj' & _).
      destruct (lt_eq_lt_dec j' j) as [[Hlt | Heq] | Hgt].
      * rewrite (Hlater _ _ _ Hlt Hlj) in Hsame. discriminate.
      * subst j'. rewrite Hlj in Hj'. injection Hj' as _ <-. congruence.
      * specialize (Hbetween j' (conj Hgt Hj'i)).
        unfold same_group in Hbetween. rewrite Hkeyj', Hk in Hbetween.
        congruence.
    + rewrite (previous_rev_none _ _ E _ Hlj) in Hsame. discriminate.
Qed.

(** ** Prefix sums *)







(** ** The two tables of the expander *)

Lemma lookup_lift n (cols : list (string * list cell)) :
  lookup n (lift cols) = option_map (map Cell) (lookup n cols).
Proof. apply (lookup_map (map Cell)). Qed.

Lemma names_lift (cols : list (string * list cell)) :
  names (lift cols) = names cols.
Proof. unfold names, lift. rewrite map_map. reflexivity. Qed.

Lemma well_formed_lengths {A : Type} (df : frame A) n xs :
  well_formed df -> lookup n (columns df) = Some xs ->
  List.length xs = List.length (index df).
Proof.
  intros [_ H] Hn. apply lookup_In in Hn.
  rewrite Forall_forall in H. apply (H _ Hn).
Qed.

Lemma differences_column df expand grouping d c :
  well_formed df ->
  differences df expand grouping = Ok d ->
  In c expand ->
  exists xs dc,
    lookup c (columns df) = Some xs
    /\ lookup c d = Some dc
    /\ grouped_diff (group_keys df grouping) xs = Ok dc
    /\ List.length (group_keys df grouping) = List.length xs.
Proof.
  intros Hwf H Hc. destruct grouping as [g |]; simpl in H.
  - unbind H. unbind H.
    unfold getitem in Ha. destruct (lookup g (columns df)) as [keys |] eqn:Hg;
      [| discriminate].
    injection Ha as <-.
    destruct (select_lookup _ _ c Ha0 Hc) as (xs & Hxs & Hsel).
    destruct (on_columns_lookup _ _ _ H Hsel) as (dc & Hdc & Hd).
    exists xs, dc. unfold group_keys. rewrite Hg. repeat split; try assumption.
    rewrite (well_formed_lengths _ Hwf Hg), (well_formed_lengths _ Hwf Hxs).
    reflexivity.
  - unbind H.
    destruct (select_lookup _ _ c Ha Hc) as (xs & Hxs & Hsel).
    destruct (on_columns_lookup _ _ _ H Hsel) as (dc & Hdc & Hd).
    exists xs, dc. unfold group_keys.
    rewrite <- (well_formed_lengths _ Hwf Hxs).
    repeat split; try assumption.
    + unfold grouped_diff. rewrite <- Hdc. symmetry.
      apply diff_from_grouped. reflexivity.
    + apply repeat_length.
Qed.

(** When the cast succeeds, an expanded column held counts only, and the
    cast column holds their per-group deltas. *)
Lemma cast_columns df expand grouping d ints c :
  well_formed df ->
  differences df expand grouping = Ok d ->
  on_columns astype_int (fillna_frame d (columns df)) = Ok ints ->
  In c expand ->
  exists zs,
    lookup c (columns df) = Some (map Int zs)
    /\ lookup c ints = Some (grouped_deltas [] (group_keys df grouping) zs)
    /\ List.length (group_keys df grouping) = List.length zs.
Proof.
  intros Hwf Hd Hints Hc.
  destruct (differences_column _ _ c Hwf Hd Hc)
    as (xs & dc & Hxs & Hdc & Hdiff & Hlen).
  pose proof (lookup_fillna_frame c d (columns df) Hdc) as Hfill.
  rewrite Hxs in Hfill.
  destruct (on_columns_lookup _ _ _ Hints Hfill) as (ds & Hds & Hl).
  destruct (grouped_diff_counts _ [] _ Hdiff Hlen Hds) as (zs & -> & ->).
  exists zs. repeat split; [exact Hxs | exact Hl |].
  rewrite Hlen. apply length_map.
Qed.

(** What the table of daily updates holds under the [new_] name of an
    expanded column. *)
Lemma daily_updates_column df expand ratio grouping news c :
  well_formed df ->
  daily_updates df expand ratio grouping = Ok news ->
  In c expand -> c <> ratio_column_name ratio ->
  exists zs,
    lookup c (columns df) = Some (map Int zs)
    /\ lookup ("new_" ++ c) news
       = Some (counts (grouped_deltas [] (group_keys df grouping) zs))
    /\ List.length (group_keys df grouping) = List.length zs.
Proof.
  intros Hwf H Hc Hne. unfold daily_updates in H.
  unbind H. unbind H. unbind H. unbind H. injection H as <-.
  destruct (cast_columns _ _ c Hwf Ha Ha0 Hc) as (zs & Hxs & Hints & Hlen).
  exists zs. repeat split; [exact Hxs | | exact Hlen].
  rewrite lookup_add_prefix, lookup_setitem_other by exact Hne.
  rewrite (lookup_map (map (fun z => Cell (Int z)))), Hints. reflexivity.
Qed.

(** ** Row counts *)









(** ** The call as a whole *)

Lemma update_time_df_returns df expand ratio grouping ret :
  returned (update_time_df df expand ratio grouping) = Ok ret ->
  exists news quotient,
    daily_updates df expand ratio grouping = Ok news
    /\ (numerator <- getitem (fst ratio) (columns df) ;;
        denominator <- getitem (snd ratio) (columns df) ;;
        truediv numerator denominator) = Ok quotient
    /\ update_time_df df expand ratio grouping
       = (let kept :=
            accumulated_columns
              (expand ++ [ratio_column_name ratio])
              (setitem (ratio_column_name ratio) quotient
                       (lift (columns df))) in
          {| returned := Ok {| index := index df; columns := kept ++ news |};
             df_after := {| index := index df; columns := kept |};
             expand_after := expand ++ [ratio_column_name ratio] |})
    /\ ret = {| index := index df;
                columns :=
                  accumulated_columns
                    (expand ++ [ratio_column_name ratio])
                    (setitem (ratio_column_name ratio) quotient
                             (lift (columns df))) ++ news |}.
Proof.
  unfold update_time_df.
  destruct (daily_updates df expand ratio grouping) as [news | e];
    [| discriminate].
  destruct (Py.bind _ _) as [quotient | e]; [| discriminate].
  simpl. intros [= <-]. exists news, quotient. repeat split.
Qed.

Lemma update_time_df_raises df expand ratio grouping e :
  returned (update_time_df df expand ratio grouping) = Raise e ->
  df_after (update_time_df df expand ratio grouping) = unchanged df
  /\ expand_after (update_time_df df expand ratio grouping) = expand.
Proof.
  unfold update_time_df.
  destruct (daily_updates df expand ratio grouping) as [news | e'];
    [| split; reflexivity].
  destruct (Py.bind _ _) as [quotient | e']; [discriminate |].
  split; reflexivity.
Qed.

(** The renaming loop, one column at a time. *)
Lemma accumulated_columns_names (expand1 : list string) :
  (forall c, In c expand1 -> ~ In ("accumulated_" ++ c)%string expand1) ->
  forall cols,
    accumulated_columns expand1 cols
    = map (fun nc => (accumulated_name expand1 (fst nc), snd nc)) cols.
Proof.
  unfold accumulated_columns.
  induction expand1 as [| c l IH]; intros H cols; simpl.
  - unfold accumulated_name. simpl. rewrite <- (map_id cols) at 1.
    apply map_ext. intros [n xs]. reflexivity.
  - rewrite IH by (intros c' Hc' Hin; apply (H c'); right; assumption).
    unfold rename. rewrite map_map. apply map_ext. intros [n xs]. simpl.
    f_equal. unfold accumulated_name, mem. simpl.
    destruct (String.eqb n c) eqn:E; simpl; [| reflexivity].
    apply String.eqb_eq in E. subst n.
    assert (Hm : mem ("accumulated_" ++ c) l = false).
    { apply mem_not_In. intros Hin. apply (H c); [left | right]; auto. }
    unfold mem in Hm. simpl in Hm. rewrite Hm. reflexivity.
Qed.

Lemma fresh_names_spec df expand ratio :
  fresh_names df expand ratio = true ->
  ~ In (ratio_column_name ratio) (names (columns df))
  /\ forall c, In c (expand ++ [ratio_column_name ratio]) ->
               ~ In ("accumulated_" ++ c)%string
                    (expand ++ [ratio_column_name ratio])
               /\ ~ In ("accumulated_" ++ c)%string (names (columns df))
               /\ ~ In ("new_" ++ c)%string (names (columns df)).
Proof.
  unfold fresh_names. intros H. apply andb_true_iff in H.
  destruct H as [H1 H2]. apply negb_true_iff, mem_not_In in H1.
  split; [exact H1 |]. intros c Hc.
  rewrite forallb_forall in H2. specialize (H2 c Hc).
  apply andb_true_iff in H2. destruct H2 as [H2 H4].
  apply andb_true_iff in H2. destruct H2 as [H2 H3].
  apply negb_true_iff, mem_not_In in H2, H3, H4. auto.
Qed.

Lemma lookup_accumulated (expand1 : list string) (c : string)
      (cols : list (string * list value)) :
  In c expand1 ->
  ~ In ("accumulated_" ++ c)%string (names cols) ->
  lookup ("accumulated_" ++ c)
         (map (fun nc => (accumulated_name expand1 (fst nc), snd nc)) cols)
  = lookup c cols.
Proof.
  intros Hc. induction cols as [| [n xs] cols IH];
    cbn [lookup map fst snd]; intros Hn; [reflexivity |].
  destruct (String.eqb n c) eqn:E.
  - apply String.eqb_eq in E. subst n. unfold accumulated_name.
    apply mem_In in Hc. rewrite Hc, String.eqb_refl. reflexivity.
  - assert (E' : String.eqb (accumulated_name expand1 n)
                            ("accumulated_" ++ c) = false).
    { unfold accumulated_name. destruct (mem n expand1).
      - rewrite append_eqb. exact E.
      - apply String.eqb_neq. intros ->. apply Hn. left. reflexivity. }
    rewrite E'. apply IH. intros Hin. apply Hn. right. exact Hin.
Qed.

Lemma lookup_new_renamed (expand1 : list string) (c : string)
      (cols : list (string * list value)) :
  (forall n, In n (names cols) -> mem n expand1 = false ->
             n <> ("new_" ++ c)%string) ->
  lookup ("new_" ++ c)
         (map (fun nc => (accumulated_name expand1 (fst nc), snd nc)) cols)
  = None.
Proof.
  induction cols as [| [n xs] cols IH]; cbn [lookup map fst snd]; intros H;
    [reflexivity |].
  assert (E : String.eqb (accumulated_name expand1 n) ("new_" ++ c) = false).
  { unfold accumulated_name. destruct (mem n expand1) eqn:Em.
    - reflexivity.
    - apply String.eqb_neq. apply H; [left; reflexivity | exact Em]. }
  rewrite E. apply IH. intros m Hm. apply H. right. exact Hm.
Qed.

(** The caller's table after a call that returns, under fresh names: its
    columns renamed, followed by the ratio column. *)
Lemma kept_columns df expand ratio quotient :
  fresh_names df expand ratio = true ->
  accumulated_columns
    (expand ++ [ratio_column_name ratio])
    (setitem (ratio_column_name ratio) quotient (lift (columns df)))
  = map (fun nc => (accumulated_name (expand ++ [ratio_column_name ratio])
                                     (fst nc), snd nc))
        (lift (columns df) ++ [(ratio_column_name ratio, quotient)]).
Proof.
  intros Hfresh. apply fresh_names_spec in Hfresh.
  destruct Hfresh as [Hr Hc].
  rewrite setitem_new by (rewrite names_lift; exact Hr).
  apply accumulated_columns_names. intros c Hin. apply (Hc c Hin).
Qed.

Lemma lookup_new_kept df expand ratio quotient c :
  fresh_names df expand ratio = true ->
  In c expand ->
  lookup ("new_" ++ c)
         (accumulated_columns
            (expand ++ [ratio_column_name ratio])
            (setitem (ratio_column_name ratio) quotient (lift (columns df))))
  = None.
Proof.
  intros Hfresh Hc. rewrite kept_columns by exact Hfresh.
  apply fresh_names_spec in Hfresh. destruct Hfresh as [_ Hf].
  apply lookup_new_renamed. intros n Hn Hm.
  unfold names in Hn. rewrite map_app in Hn. apply in_app_or in Hn.
  destruct Hn as [Hn | [<- | []]].
  - fold (names (lift (columns df))) in Hn. rewrite names_lift in Hn.
    intros ->.
    apply (proj2 (proj2 (Hf c (in_or_app _ _ _ (or_introl Hc))))), Hn.
  - simpl in Hm. apply mem_not_In in Hm. exfalso. apply Hm.
    apply in_or_app. right. left. reflexivity.
Qed.

Lemma lookup_accumulated_kept df expand ratio quotient c :
  fresh_names df expand ratio = true ->
  In c expand ->
  c <> ratio_column_name ratio ->
  lookup ("accumulated_" ++ c)
         (accumulated_columns
            (expand ++ [ratio_column_name ratio])
            (setitem (ratio_column_name ratio) quotient (lift (columns df))))
  = option_map (map Cell) (lookup c (columns df)).
Proof.
  intros Hfresh Hc Hne. rewrite kept_columns by exact Hfresh.
  apply fresh_names_spec in Hfresh. destruct Hfresh as [_ Hf].
  assert (Hin : In c (expand ++ [ratio_column_name ratio]))
    by (apply in_or_app; left; exact Hc).
  destruct (Hf c Hin) as (H1 & H2 & _).
  rewrite lookup_accumulated; [| exact Hin |].
  - rewrite lookup_app, lookup_lift.
    destruct (lookup c (columns df)); simpl; [reflexivity |].
    apply String.eqb_neq in Hne. rewrite String.eqb_sym, Hne. reflexivity.
  - unfold names. rewrite map_app. intros Hn. apply in_app_or in Hn.
    destruct Hn as [Hn | [Hn | []]].
    + fold (names (lift (columns df))) in Hn. rewrite names_lift in Hn.
      exact (H2 Hn).
    + cbn [fst] in Hn. apply H1. rewrite <- Hn. apply in_or_app. right.
      left. reflexivity.
Qed.

Lemma expanded_is_not_ratio df expand ratio c xs :
  fresh_names df expand ratio = true ->
  lookup c (columns df) = Some xs ->
  c <> ratio_column_name ratio.
Proof.
  intros Hfresh Hxs ->. apply fresh_names_spec in Hfresh.
  destruct Hfresh as [Hr _]. apply lookup_In in Hxs.
  apply Hr. unfold names. apply in_map_iff.
  exists (ratio_column_name ratio, xs). split; [reflexivity | exact Hxs].
Qed.

Lemma expanded_column_exists df expand ratio grouping news c :
  daily_updates df expand ratio grouping = Ok news ->
  In c expand ->
  exists xs, lookup c (columns df) = Some xs.
Proof.
  intros H Hc. unfold daily_updates in H. unbind H.
  destruct grouping as [g |]; simpl in Ha; unbind Ha; try unbind Ha.
  - destruct (select_lookup _ _ c Ha1 Hc) as (xs & Hxs & _). eauto.
  - destruct (select_lookup _ _ c Ha0 Hc) as (xs & Hxs & _). eauto.
Qed.


Lemma astype_int_raises (xs : list cell) (e : exn) :
  astype_int xs = Raise e -> e = ValueError.
Proof.
  unfold astype_int. apply traverse_raise.
  intros [z | | s] e' _; simpl; congruence.
Qed.

(** What the returned table holds under the two names derived from a
    column named in [expand]. *)
Lemma returned_columns df expand ratio grouping ret c :
  well_formed df ->
  fresh_names df expand ratio = true ->
  returned (update_time_df df expand ratio grouping) = Ok ret ->
  In c expand ->
  exists zs,
    lookup c (columns df) = Some (map Int zs)
    /\ lookup ("accumulated_" ++ c) (columns ret) = Some (counts zs)
    /\ lookup ("new_" ++ c) (columns ret)
       = Some (counts (grouped_deltas [] (group_keys df grouping) zs))
    /\ List.length (group_keys df grouping) = List.length zs.
Proof.
  intros Hwf Hfresh Hret Hc.
  destruct (@update_time_df_returns df expand ratio grouping ret Hret)
    as (news & quotient & Hnews & _ & _ & ->).
  destruct (@expanded_column_exists df expand ratio grouping news c
                                    Hnews Hc) as (xs0 & Hxs0).
  pose proof (@expanded_is_not_ratio df expand ratio c xs0 Hfresh Hxs0)
    as Hne.
  destruct (@daily_updates_column df expand ratio grouping news c
                                  Hwf Hnews Hc Hne)
    as (zs & Hxs & Hnew & Hlen).
  exists zs. cbn [columns]. repeat split.
  - exact Hxs.
  - rewrite lookup_app, lookup_accumulated_kept by assumption.
    rewrite Hxs. simpl. unfold counts. rewrite map_map. reflexivity.
  - rewrite lookup_app, lookup_new_kept by assumption. exact Hnew.
  - exact Hlen.
Qed.


(** ** The claims *)


(** C3.  In the table a call returns, the [new_] column of a column named
    in [expand] is the first difference of that column along row order, per
    group of the grouping column or over the whole table, the first row of
    a group holding the accumulated value itself. *)
Theorem new_columns_are_first_differences
        (df : frame cell) (expand : list string) (ratio : string * string)
        (grouping : option string) (ret : frame value) (c : string) :
  well_formed df ->
  fresh_names df expand ratio = true ->
  returned (update_time_df df expand ratio grouping) = Ok ret ->
  In c expand ->
  exists xs ds,
    lookup c (columns df) = Some (map Int xs)
    /\ lookup ("new_" ++ c) (columns ret) = Some (counts ds)
    /\ first_difference (group_keys df grouping) xs ds
    /\ (grouping = None -> ds = deltas 0 xs).
Proof.
  intros Hwf Hfresh Hret Hc.
  destruct (@returned_columns df expand ratio grouping ret c
                              Hwf Hfresh Hret Hc)
    as (zs & Hxs & _ & Hnew & Hlen).
  exists zs, (grouped_deltas [] (group_keys df grouping) zs).
  split; [exact Hxs |]. split; [exact Hnew |]. split.
  - apply grouped_deltas_first_difference, Hlen.
  - intros ->. simpl in *. rewrite repeat_length in Hlen. rewrite Hlen.
    apply grouped_deltas_no_group.
Qed.


(** C10.  A call either raises or returns a table whose [new_] column of
    every column named in [expand] holds integers only; and when such a
    column has a missing value on any row, the call raises, with the
    [ValueError] of the integer cast once the differences were computed. *)
Theorem new_columns_are_integers_or_error
        (df : frame cell) (expand : list string) (ratio : string * string)
        (grouping : option string) :
  well_formed df ->
  fresh_names df expand ratio = true ->
  match returned (update_time_df df expand ratio grouping) with
  | Ok ret =>
      forall c, In c expand ->
                exists ds, lookup ("new_" ++ c) (columns ret)
                           = Some (counts ds)
  | Raise _ => True
  end
  /\ forall c xs,
      In c expand -> lookup c (columns df) = Some xs -> In NaN xs ->
      exists e,
        returned (update_time_df df expand ratio grouping) = Raise e
        /\ (forall d, differences df expand grouping = Ok d ->
                      e = ValueError).
Proof.
  intros Hwf Hfresh. split.
  - destruct (returned (update_time_df df expand ratio grouping))
      as [ret | e] eqn:Hret; [| exact I].
    intros c Hc.
    destruct (@returned_columns df expand ratio grouping ret c
                                Hwf Hfresh Hret Hc)
      as (zs & _ & _ & Hnew & _).
    eexists. exact Hnew.
  - intros c xs Hc Hxs Hnan.
    assert (Hcast : forall d ints,
               differences df expand grouping = Ok d ->
               on_columns astype_int (fillna_frame d (columns df)) = Ok ints ->
               False).
    { intros d ints Hd Hints.
      destruct (@cast_columns df expand grouping d ints c Hwf Hd Hints Hc)
        as (zs & Hzs & _).
      rewrite Hxs in Hzs. injection Hzs as ->.
      apply in_map_iff in Hnan. destruct Hnan as (z & Hz & _).
      discriminate Hz. }
    unfold update_time_df, daily_updates.
    destruct (differences df expand grouping) as [d | e] eqn:Hd; simpl.
    + destruct (on_columns astype_int (fillna_frame d (columns df)))
        as [ints | e] eqn:Hints; simpl.
      * exfalso. eapply Hcast; [reflexivity | exact Hints].
      * exists e. split; [reflexivity |]. intros _ _.
        eapply on_columns_raise; [| exact Hints].
        intros ys e'. apply astype_int_raises.
    + exists e. split; [reflexivity |]. intros d' Hd'. discriminate Hd'.
Qed.

(** ** The example tables *)

Lemma time_well_formed : well_formed Examples.time.
Proof.
  split.
  - repeat constructor; simpl; intuition discriminate.
  - repeat constructor.
Qed.

Lemma time_province_well_formed : well_formed Examples.time_province.
Proof.
  split.
  - repeat constructor; simpl; intuition discriminate.
  - repeat constructor.
Qed.

Lemma time_with_gap_well_formed : well_formed Examples.time_with_gap.
Proof.
  split.
  - repeat constructor; simpl; intuition discriminate.
  - repeat constructor.
Qed.

(** The accumulated counts 10, 15, 23 give the new counts 10, 5, 8. *)
Example expander_on_time :
  returned (update_time_df Examples.time Examples.time_expand
                           Examples.time_ratio None)
  = Ok Examples.time_expanded.
Proof. reflexivity. Qed.

Example expander_on_time_province :
  returned (update_time_df Examples.time_province Examples.time_expand
                           Examples.time_ratio (Some "province"))
  = Ok Examples.time_province_expanded.
Proof. reflexivity. Qed.

(** A missing count stops the call at the integer cast. *)
Example expander_on_time_with_gap :
  returned (update_time_df Examples.time_with_gap Examples.time_expand
                           Examples.time_ratio None)
  = Raise ValueError.
Proof. reflexivity. Qed.



Lemma new_columns_witness :
  exists xs ds,
    lookup "confirmed" (columns Examples.time) = Some (map Int xs)
    /\ lookup "new_confirmed" (columns Examples.time_expanded)
       = Some (counts ds)
    /\ first_difference (group_keys Examples.time None) xs ds
    /\ (@None string = None -> ds = deltas 0 xs).
Proof.
  apply (@new_columns_are_first_differences
           Examples.time Examples.time_expand Examples.time_ratio None
           Examples.time_expanded "confirmed").
  - exact time_well_formed.
  - reflexivity.
  - reflexivity.
  - simpl. auto.
Defined.


Lemma new_columns_error_witness :
  True
  /\ forall c xs,
      In c Examples.time_expand ->
      lookup c (columns Examples.time_with_gap) = Some xs ->
      In NaN xs ->
      exists e,
        returned (update_time_df Examples.time_with_gap Examples.time_expand
                                 Examples.time_ratio None) = Raise e
        /\ (forall d,
               differences Examples.time_with_gap Examples.time_expand None
               = Ok d ->
               e = ValueError).
Proof.
  apply (@new_columns_are_integers_or_error
           Examples.time_with_gap Examples.time_expand Examples.time_ratio
           None).
  - exact time_with_gap_well_formed.
  - reflexivity.
Defined.

End TimeSeriesFacts.

(** * Further properties of the primitives *)

Module MoreFacts.
Import PyFacts.

Lemma traverse_ok_Forall {A B : Type} (f : A -> result B) (xs : list A) :
  (exists ys, Py.traverse f xs = Ok ys)
  <-> Forall (fun x => exists y, f x = Ok y) xs.
Proof.
  induction xs as [| x xs IH]; simpl.
  - split; [constructor | eexists; reflexivity].
  - split.
    + intros (ys & H). unbind H. unbind H. constructor; [eauto |].
      apply IH. eauto.
    + intros H. apply Forall_cons_iff in H. destruct H as [(y & Hy) H].
      apply IH in H. destruct H as (ys & Hys).
      rewrite Hy, Hys. simpl. eexists. reflexivity.
Qed.

Lemma traverse_ext {A B : Type} (f g : A -> result B) (xs : list A) :
  (forall x, In x xs -> f x = g x) -> Py.traverse f xs = Py.traverse g xs.
Proof.
  induction xs as [| x xs IH]; intros H; simpl; [reflexivity |].
  rewrite (H x (or_introl eq_refl)).
  rewrite IH by (intros y Hy; apply H; right; exact Hy). reflexivity.
Qed.

Lemma assign_where_length {A : Type} (mask : list bool) :
  forall xs ys : list A,
    List.length (Py.assign_where mask xs ys) = List.length xs.
Proof.
  induction mask as [| m mask IH]; intros [| x xs] [| y ys]; simpl;
    try reflexivity.
  f_equal. apply IH.
Qed.

Lemma nan_where_kept {A : Type} (mask : list bool) :
  forall (xs : list (option A)) i,
    nth_error mask i <> Some true ->
    nth_error (Py.nan_where mask xs) i = nth_error xs i.
Proof.
  induction mask as [| m mask IH]; intros xs i Hm; [reflexivity |].
  destruct xs as [| x xs]; [reflexivity |].
  destruct i as [| i]; simpl in *.
  - destruct m; [congruence | reflexivity].
  - apply IH. exact Hm.
Qed.

Lemma nan_where_nulled {A : Type} (mask : list bool) :
  forall (xs : list (option A)) i x,
    nth_error mask i = Some true -> nth_error xs i = Some x ->
    nth_error (Py.nan_where mask xs) i = Some None.
Proof.
  intros xs i x Hm Hx. apply (nan_where_nth _ _ _ Hm Hx).
Qed.

(** A property that holds of a missing entry holds of a column after the
    nulling exactly when it holds of the entries off the mask. *)
Lemma Forall_nan_where {A : Type} (P : option A -> Prop) (mask : list bool) :
  P None ->
  forall xs,
    Forall P (Py.nan_where mask xs)
    <-> forall i x, nth_error xs i = Some x ->
                    nth_error mask i <> Some true -> P x.
Proof.
  intros HP xs. rewrite Forall_forall. split.
  - intros H i x Hx Hm. apply H.
    apply (nth_error_In _ i). rewrite nan_where_kept by exact Hm. exact Hx.
  - intros H y Hy. apply In_nth_error in Hy. destruct Hy as (i & Hi).
    destruct (nth_error xs i) as [x |] eqn:Hx.
    + destruct (nth_error mask i) as [[|] |] eqn:Hm.
      * rewrite (nan_where_nulled _ _ _ Hm Hx) in Hi.
        injection Hi as <-. exact HP.
      * rewrite nan_where_kept in Hi by congruence.
        rewrite Hx in Hi. injection Hi as <-.
        apply (H i); [exact Hx | congruence].
      * rewrite nan_where_kept in Hi by congruence.
        rewrite Hx in Hi. injection Hi as <-.
        apply (H i); [exact Hx | congruence].
    + assert (Hlen : (i < List.length (Py.nan_where mask xs))%nat)
        by (apply nth_error_Some; congruence).
      rewrite nan_where_length in Hlen. apply nth_error_None in Hx. lia.
Qed.

End MoreFacts.

(** * Further properties of the cases loader *)

Module CasesMore.
Import Cases CasesSpec PyFacts MoreFacts.

Section Loader.
Variable F : Type.
Variable float_of_str : string -> option (option F).

Lemma mask_sentinel (df : cases_csv F) (i : nat) :
  nth_error (eq_mask "-" (latitude df)) i = Some true <-> sentinel_row df i.
Proof.
  unfold sentinel_row. destruct (latitude df) as [xs | xs]; simpl.
  - rewrite !nth_error_map. destruct (nth_error xs i); simpl;
      split; discriminate.
  - rewrite nth_error_map. destruct (nth_error xs i) as [x |]; simpl.
    + split; intros H.
      * injection H as H. apply CasesFacts.eq_str_true in H. congruence.
      * injection H as ->. reflexivity.
    + split; discriminate.
Qed.

Lemma astype_set_nan_ok (mask : list bool) (c : column F) :
  (exists ys, astype_float float_of_str (set_nan mask c) = Ok ys)
  <-> forall i s,
      nth_error (strings c) i = Some (Some s) ->
      nth_error mask i <> Some true ->
      float_of_str s <> None.
Proof.
  destruct c as [xs | xs]; simpl.
  - split; [| eexists; reflexivity].
    intros _ i s H. rewrite nth_error_map in H.
    destruct (nth_error xs i); discriminate H.
  - rewrite traverse_ok_Forall.
    rewrite Forall_nan_where by (eexists; reflexivity).
    split.
    + intros H i s Hs Hm. destruct (H i (Some s) Hs Hm) as (y & Hy).
      simpl in Hy. destruct (float_of_str s); [discriminate | discriminate Hy].
    + intros H i [s |] Hx Hm; simpl; [| eexists; reflexivity].
      specialize (H i s Hx Hm).
      destruct (float_of_str s); [eexists; reflexivity | contradiction].
Qed.

Lemma astype_float_raise (c : column F) (e : exn) :
  astype_float float_of_str c = Raise e -> e = ValueError.
Proof.
  destruct c as [xs | xs]; simpl; [discriminate |].
  apply traverse_raise. intros [s |] e' _; simpl; [| discriminate].
  destruct (float_of_str s); congruence.
Qed.

Lemma astype_float_length (mask : list bool) (c : column F) ys :
  astype_float float_of_str (set_nan mask c) = Ok ys ->
  List.length ys = size c.
Proof.
  destruct c as [xs | xs]; simpl.
  - intros [= <-]. apply nan_where_length.
  - intros H. rewrite (traverse_length _ _ H). apply nan_where_length.
Qed.

Lemma astype_set_nan_kept (mask : list bool) (c : column F) ys i :
  astype_float float_of_str (set_nan mask c) = Ok ys ->
  nth_error mask i <> Some true ->
  (forall s, nth_error (strings c) i = Some (Some s) ->
             exists v, float_of_str s = Some v /\ nth_error ys i = Some v)
  /\ (forall xs x, c = Numeric xs -> nth_error xs i = Some x ->
                   nth_error ys i = Some x).
Proof.
  intros H Hm. destruct c as [xs | xs]; simpl in *.
  - injection H as <-. split.
    + intros s Hs. rewrite nth_error_map in Hs.
      destruct (nth_error xs i); discriminate Hs.
    + intros xs' x [= <-] Hx. rewrite nan_where_kept by exact Hm. exact Hx.
  - split; [| discriminate].
    intros s Hs.
    assert (Hk : nth_error (Py.nan_where mask xs) i = Some (Some s))
      by (rewrite nan_where_kept by exact Hm; exact Hs).
    destruct (traverse_nth _ _ _ H Hk) as (y & Hy & Hys).
    simpl in Hy. destruct (float_of_str s) as [v |]; [| discriminate].
    injection Hy as <-. eauto.
Qed.

Lemma load_cases_ok_iff (df : cases_csv F) :
  (exists out, load_cases_data float_of_str df = Ok out)
  <-> readable_coordinates float_of_str df.
Proof.
  unfold readable_coordinates. split.
  - intros (out & H) i s Hns Hs.
    unfold load_cases_data in H. unbind H. unbind H.
    assert (Hm : nth_error (eq_mask "-" (latitude df)) i <> Some true)
      by (rewrite mask_sentinel; exact Hns).
    destruct Hs as [Hs | Hs].
    + exact (proj1 (astype_set_nan_ok _ (latitude df))
                   (ex_intro _ a Ha) i s Hs Hm).
    + exact (proj1 (astype_set_nan_ok _ (longitude df))
                   (ex_intro _ a0 Ha0) i s Hs Hm).
  - intros H.
    assert (Hlat : exists ys,
               astype_float float_of_str
                            (set_nan (eq_mask "-" (latitude df))
                                     (latitude df)) = Ok ys).
    { apply astype_set_nan_ok. intros i s Hs Hm.
      apply (H i s); [rewrite <- mask_sentinel; exact Hm | left; exact Hs]. }
    assert (Hlon : exists ys,
               astype_float float_of_str
                            (set_nan (eq_mask "-" (latitude df))
                                     (longitude df)) = Ok ys).
    { apply astype_set_nan_ok. intros i s Hs Hm.
      apply (H i s); [rewrite <- mask_sentinel; exact Hm | right; exact Hs]. }
    destruct Hlat as (lat & Hlat). destruct Hlon as (lon & Hlon).
    unfold load_cases_data. rewrite Hlat, Hlon. simpl.
    eexists. reflexivity.
Qed.

Lemma load_cases_raise (df : cases_csv F) (e : exn) :
  load_cases_data float_of_str df = Raise e -> e = ValueError.
Proof.
  unfold load_cases_data. intros H.
  apply bind_raise in H. destruct H as [H | (lat & _ & H)].
  - eapply astype_float_raise, H.
  - apply bind_raise in H. destruct H as [H | (lon & _ & H)].
    + eapply astype_float_raise, H.
    + discriminate H.
Qed.

(** X1.  The cases loader returns a table exactly when every coordinate
    read as a string, off the rows whose latitude is the sentinel, spells a
    number; when it does not return, what it raises is the [ValueError] of
    the cast to float. *)
Theorem load_cases_data_returns_iff_readable (df : cases_csv F) :
  ((exists out, load_cases_data float_of_str df = Ok out)
   <-> readable_coordinates float_of_str df)
  /\ forall e, load_cases_data float_of_str df = Raise e -> e = ValueError.
Proof.
  split; [apply load_cases_ok_iff | apply load_cases_raise].
Qed.

(** X2.  The cases loader keeps the rows: when every column read has [n]
    rows, every column returned has, [sub_city] included. *)
Theorem load_cases_data_keeps_rows (df : cases_csv F) (out : cases F)
        (n : nat) :
  load_cases_data float_of_str df = Ok out ->
  csv_rows n df ->
  loaded_rows n out.
Proof.
  intros H (H1 & H2 & H3 & H4 & H5 & H6 & H7 & H8).
  unfold load_cases_data in H. unbind H. unbind H. injection H as <-.
  unfold loaded_rows. simpl.
  rewrite length_map, !assign_where_length.
  rewrite (astype_float_length _ _ Ha), (astype_float_length _ _ Ha0).
  repeat split; assumption.
Qed.

(** X3.  The two placeholders do not survive the load: a city returned as
    ["-"] or a [sub_city] returned as ["from other city"] can only be the
    province of that row. *)
Theorem placeholders_do_not_survive
        (df : cases_csv F) (out : cases F) (i : nat) (c p : option string) :
  load_cases_data float_of_str df = Ok out ->
  nth_error (city df) i = Some c ->
  nth_error (province df) i = Some p ->
  (nth_error (o_city out) i = Some (Some "-") -> p = Some "-")
  /\ (nth_error (sub_city out) i = Some (Some "from other city") ->
      p = Some "from other city").
Proof.
  intros H Hc Hp.
  unfold load_cases_data in H. unbind H. unbind H. injection H as <-. simpl.
  set (city1 := Py.assign_where (map (Py.eq_str "-") (city df)) (city df)
                                (province df)).
  assert (H1 : nth_error city1 i = Some (if Py.eq_str "-" c then p else c)).
  { apply assign_where_nth; [| exact Hc | exact Hp].
    rewrite nth_error_map, Hc. reflexivity. }
  set (c' := if Py.eq_str "-" c then p else c) in *.
  assert (H2 : nth_error
                 (Py.assign_where (map (Py.eq_str "from other city") city1)
                                  city1 (province df)) i
               = Some (if Py.eq_str "from other city" c' then p else c')).
  { apply assign_where_nth; [| exact H1 | exact Hp].
    rewrite nth_error_map, H1. reflexivity. }
  split.
  - rewrite H1. intros [= E]. subst c'.
    destruct (Py.eq_str "-" c) eqn:Ec; [exact E |].
    apply CasesFacts.eq_str_false in Ec. contradiction.
  - rewrite H2. intros [= E].
    destruct (Py.eq_str "from other city" c') eqn:Ec; [exact E |].
    apply CasesFacts.eq_str_false in Ec. contradiction.
Qed.

(** X4.  The sentinel is looked for in [latitude] only: a row that
    carries it in [longitude] and not in [latitude] stops the load with a
    [ValueError], ["-"] being no number. *)
Theorem longitude_sentinel_alone_stops_the_load
        (df : cases_csv F) (i : nat) :
  float_of_str "-" = None ->
  nth_error (strings (longitude df)) i = Some (Some "-") ->
  ~ sentinel_row df i ->
  load_cases_data float_of_str df = Raise ValueError.
Proof.
  intros Hf Hlon Hns.
  destruct (load_cases_data float_of_str df) as [out | e] eqn:H.
  - exfalso.
    assert (Hr : readable_coordinates float_of_str df)
      by (apply load_cases_ok_iff; eauto).
    apply (Hr i "-" Hns); [right; exact Hlon | exact Hf].
  - f_equal. eapply load_cases_raise, H.
Qed.

(** X5.  Off the sentinel rows the loader changes no coordinate: one read
    as a string is returned as the number it spells, one read as a number
    is returned as it is. *)
Theorem coordinates_off_sentinel_rows
        (df : cases_csv F) (out : cases F) (i : nat) :
  load_cases_data float_of_str df = Ok out ->
  ~ sentinel_row df i ->
  (forall s, nth_error (strings (latitude df)) i = Some (Some s) ->
             exists v, float_of_str s = Some v
                       /\ nth_error (o_latitude out) i = Some v)
  /\ (forall s, nth_error (strings (longitude df)) i = Some (Some s) ->
                exists v, float_of_str s = Some v
                          /\ nth_error (o_longitude out) i = Some v)
  /\ (forall xs x, latitude df = Numeric xs -> nth_error xs i = Some x ->
                   nth_error (o_latitude out) i = Some x)
  /\ (forall xs x, longitude df = Numeric xs -> nth_error xs i = Some x ->
                   nth_error (o_longitude out) i = Some x).
Proof.
  intros H Hns.
  assert (Hm : nth_error (eq_mask "-" (latitude df)) i <> Some true)
    by (rewrite mask_sentinel; exact Hns).
  unfold load_cases_data in H. unbind H. unbind H. injection H as <-. simpl.
  destruct (astype_set_nan_kept _ _ i Ha Hm) as [Hlat1 Hlat2].
  destruct (astype_set_nan_kept _ _ i Ha0 Hm) as [Hlon1 Hlon2].
  repeat split; assumption.
Qed.

End Loader.

(** The example table has three rows before and after the load. *)
Lemma load_cases_data_keeps_rows_witness :
  loaded_rows 3 Examples.infection_cases_loaded.
Proof.
  apply (@load_cases_data_keeps_rows
           Z Examples.plain_number Examples.infection_cases
           Examples.infection_cases_loaded 3%nat).
  - reflexivity.
  - unfold csv_rows. simpl. repeat split; reflexivity.
Defined.

(** Row 1 of the example table, whose city is ["from other city"]. *)
Lemma placeholders_witness :
  (nth_error (o_city Examples.infection_cases_loaded) 1 = Some (Some "-") ->
   Some "Seoul" = Some "-")
  /\ (nth_error (sub_city Examples.infection_cases_loaded) 1
      = Some (Some "from other city") ->
      Some "Seoul" = Some "from other city").
Proof.
  apply (@placeholders_do_not_survive
           Z Examples.plain_number Examples.infection_cases
           Examples.infection_cases_loaded 1%nat
           (Some "from other city") (Some "Seoul")).
  - reflexivity.
  - reflexivity.
  - reflexivity.
Defined.

(** Row 1 of the table with the sentinel in [longitude] only. *)
Lemma longitude_sentinel_witness :
  load_cases_data Examples.plain_number MoreExamples.half_sentinel
  = Raise ValueError.
Proof.
  apply (@longitude_sentinel_alone_stops_the_load
           Z Examples.plain_number MoreExamples.half_sentinel 1%nat).
  - reflexivity.
  - reflexivity.
  - intros H. vm_compute in H. discriminate H.
Defined.

(** Row 0 of the example table, read as ["37"] and ["126"]. *)
Lemma coordinates_witness :
  (forall s,
      nth_error (strings (latitude Examples.infection_cases)) 0
      = Some (Some s) ->
      exists v, Examples.plain_number s = Some v
                /\ nth_error (o_latitude Examples.infection_cases_loaded) 0
                   = Some v)
  /\ (forall s,
         nth_error (strings (longitude Examples.infection_cases)) 0
         = Some (Some s) ->
         exists v, Examples.plain_number s = Some v
                   /\ nth_error (o_longitude Examples.infection_cases_loaded)
                                0 = Some v)
  /\ (forall xs x,
         latitude Examples.infection_cases = Numeric xs ->
         nth_error xs 0 = Some x ->
         nth_error (o_latitude Examples.infection_cases_loaded) 0 = Some x)
  /\ (forall xs x,
         longitude Examples.infection_cases = Numeric xs ->
         nth_error xs 0 = Some x ->
         nth_error (o_longitude Examples.infection_cases_loaded) 0 = Some x).
Proof.
  apply (@coordinates_off_sentinel_rows
           Z Examples.plain_number Examples.infection_cases
           Examples.infection_cases_loaded 0%nat).
  - reflexivity.
  - intros H. vm_compute in H. discriminate H.
Defined.

End CasesMore.

(** * Further properties of the patient loader *)

Module PatientMore.
Import Patient PatientSpec PyFacts MoreFacts.

Lemma int_of_str_of_int (n : Z) : int_of_str (Py.str_of_int n) = Some n.
Proof.
  unfold int_of_str, Py.str_of_int.
  rewrite NilEmpty.isi. simpl. rewrite DecimalZ.of_to. reflexivity.
Qed.

Lemma str_of_int_inj (n m : Z) :
  Py.str_of_int n = Py.str_of_int m -> n = m.
Proof.
  intros H. apply (f_equal int_of_str) in H.
  rewrite !int_of_str_of_int in H. congruence.
Qed.

Lemma NoDup_str_of_int (ids : list Z) :
  NoDup (map Py.str_of_int ids) <-> NoDup ids.
Proof.
  split; [apply NoDup_map_inv |].
  induction ids as [| n ids IH]; intros H; simpl; [constructor |].
  apply NoDup_cons_iff in H. destruct H as [Hn H]. constructor.
  - intros Hin. apply in_map_iff in Hin. destruct Hin as (m & Hm & Hin).
    apply str_of_int_inj in Hm. subst m. contradiction.
  - apply IH, H.
Qed.

Lemma lstrip_blank (s : string) : Py.blank s = true -> Py.lstrip s = "".
Proof.
  induction s as [| c s IH]; simpl; [reflexivity |].
  intros H. apply andb_true_iff in H. destruct H as [Hc H].
  rewrite Hc. apply IH, H.
Qed.

Lemma strip_blank (s : string) : Py.blank s = true -> Py.strip s = "".
Proof.
  intros H. unfold Py.strip. rewrite (lstrip_blank _ H). reflexivity.
Qed.

Lemma whole_days_of_day_count (x y : Z) :
  whole_days x y ((x - y) / ns_per_day)
  /\ (0 <= (x - y) / ns_per_day <-> y <= x).
Proof.
  unfold whole_days, ns_per_day.
  change (86400 * 1000000000) with 86400000000000.
  pose proof (Z.div_mod (x - y) 86400000000000 ltac:(lia)) as Hdm.
  pose proof (Z.mod_pos_bound (x - y) 86400000000000 ltac:(lia)) as Hb.
  lia.
Qed.

Lemma intervals_length (dst src ys : list (option Z)) :
  intervals dst src = Ok ys ->
  List.length ys = Nat.min (List.length dst) (List.length src).
Proof.
  unfold intervals. intros H.
  rewrite (traverse_length _ _ H). apply length_combine.
Qed.

Lemma intervals_round_down (dst src ys : list (option Z)) (i : nat) :
  intervals dst src = Ok ys -> rounds_down dst src ys i.
Proof.
  intros H x y Hx Hy.
  pose proof (PatientFacts.nth_error_combine _ _ _ Hx Hy) as Hxy.
  unfold intervals in H.
  destruct (traverse_nth _ _ _ H Hxy) as (d & Hd & Hys).
  simpl in Hd. pose proof Hd as Hd'.
  apply PatientFacts.interval_ok in Hd'. simpl in Hd'. subst d.
  exists ((x - y) / ns_per_day). split; [exact Hys |].
  destruct (whole_days_of_day_count x y) as [Hw Hs].
  split; [exact Hw |]. split; [exact Hs |].
  eapply PatientFacts.interval_fits_float32, Hd.
Qed.

Section Loader.
Variables F64 F32 : Type.
Variable float_of_str : string -> option (option F32).
Variable to_datetime : string -> option (option Z).

Lemma strip_and_parse_nth (xs : list (option string)) parsed i x :
  strip_and_parse to_datetime (Text xs) = Ok parsed ->
  nth_error xs i = Some x ->
  nth_error parsed i = Some (parse_trimmed to_datetime x)
  /\ forall s, x = Some s -> to_datetime (Py.strip s) <> None.
Proof.
  simpl. intros H Hx.
  assert (Hs : nth_error (map (option_map Py.strip) xs) i
               = Some (option_map Py.strip x))
    by (rewrite nth_error_map, Hx; reflexivity).
  destruct (traverse_nth _ _ _ H Hs) as (t & Ht & Hp).
  destruct x as [s |]; simpl in *.
  - destruct (to_datetime (Py.strip s)) as [t' |] eqn:E; [| discriminate].
    injection Ht as <-. split; [exact Hp |]. intros s' [= <-]. congruence.
  - injection Ht as <-. split; [exact Hp | discriminate].
Qed.

Lemma load_patient_info_steps (df : patient_csv F64) (out : patient_info F32) :
  load_patient_info float_of_str to_datetime df = Ok out ->
  exists xs cs,
    symptom_onset_date df = Text xs
    /\ contact_number df = Object cs
    /\ strip_and_parse to_datetime (Text xs) = Ok (o_symptom_onset_date out)
    /\ Py.traverse (float_of_entry float_of_str) (map kept_contact cs)
       = Ok (o_contact_number out)
    /\ intervals (confirmed_date df) (o_symptom_onset_date out)
       = Ok (symptom_to_confirmed out)
    /\ intervals (released_date df) (confirmed_date df)
       = Ok (confirmed_to_released out)
    /\ intervals (deceased_date df) (confirmed_date df)
       = Ok (confirmed_to_deceased out).
Proof.
  intros H. unfold load_patient_info in H.
  destruct (symptom_onset_date df) as [xs | xs] eqn:Hxs; [discriminate H |].
  destruct (contact_number df) as [cs | cs] eqn:Hcs.
  - unbind H. discriminate H.
  - rewrite PatientFacts.clean_contact_number_object in H.
    unbind H. simpl in H. unbind H. unbind H. unbind H. unbind H.
    injection H as <-. simpl. exists xs, cs. repeat split; assumption.
Qed.

(** X6.  The loader returns a table only when [read_csv] left both
    [symptom_onset_date] and [contact_number] as text, every symptom-onset
    entry is a date once trimmed, and every contact number is a sentinel,
    ten characters long or a number. *)
Theorem load_patient_info_returns_only_on_text
        (df : patient_csv F64) (out : patient_info F32) :
  load_patient_info float_of_str to_datetime df = Ok out ->
  exists xs cs,
    symptom_onset_date df = Text xs
    /\ contact_number df = Object cs
    /\ (forall s, In (Some s) xs -> to_datetime (Py.strip s) <> None)
    /\ forallb (readable_contact float_of_str) cs = true.
Proof.
  intros H.
  destruct (load_patient_info_steps _ H)
    as (xs & cs & Hxs & Hcs & Hparse & Hcast & _).
  exists xs, cs. split; [exact Hxs |]. split; [exact Hcs |]. split.
  - intros s Hin. apply In_nth_error in Hin. destruct Hin as (i & Hi).
    destruct (strip_and_parse_nth _ _ Hparse Hi) as [_ Hs].
    apply (Hs s eq_refl).
  - apply forallb_forall. intros c Hc.
    assert (Hk : In (kept_contact c) (map kept_contact cs))
      by (apply in_map; exact Hc).
    apply In_nth_error in Hk. destruct Hk as (i & Hi).
    destruct (traverse_nth _ _ _ Hcast Hi) as (v & Hv & _).
    unfold readable_contact. destruct c as [s |]; [| reflexivity].
    simpl in Hv.
    destruct (String.eqb s "-" || Nat.eqb (String.length s) 10);
      [reflexivity |].
    simpl in *. destruct (float_of_str s); [reflexivity | discriminate Hv].
Qed.

(** X7.  A column [read_csv] could type stops the load at the [.str]
    accessor: a parsed [symptom_onset_date] raises [AttributeError], and so
    does a numeric [contact_number] once the symptom-onset dates are
    parsed. *)
Theorem typed_columns_raise_attribute_error (df : patient_csv F64) :
  (forall xs, symptom_onset_date df = Datetime xs ->
              load_patient_info float_of_str to_datetime df
              = Raise AttributeError)
  /\ (forall cs parsed,
         contact_number df = Numeric cs ->
         strip_and_parse to_datetime (symptom_onset_date df) = Ok parsed ->
         load_patient_info float_of_str to_datetime df
         = Raise AttributeError).
Proof.
  unfold load_patient_info. split.
  - intros xs ->. reflexivity.
  - intros cs parsed -> ->. reflexivity.
Qed.

(** X8.  In a loaded table the age bucket of a row is missing exactly
    when the age is missing or none of the eleven categories, and
    otherwise it is ["young"] for 0s, 10s, 20s and 100s, ["middle"] for
    30s to 50s and ["old"] for 60s to 90s. *)
Theorem age_category_values
        (df : patient_csv F64) (out : patient_info F32)
        (i : nat) (a : option string) :
  load_patient_info float_of_str to_datetime df = Ok out ->
  nth_error (age df) i = Some a ->
  exists g,
    nth_error (age_category out) i = Some g
    /\ (g = None <-> ~ age_among age_categories a)
    /\ (g = Some "young" <-> age_among filed_young a)
    /\ (g = Some "middle" <-> age_among filed_middle a)
    /\ (g = Some "old" <-> age_among filed_old a).
Proof.
  intros H Ha.
  destruct (PatientFacts.age_category_row _ _ _ _ H Ha) as [_ Hg].
  eexists. split; [exact Hg |].
  unfold age_among, filed_young, filed_middle, filed_old.
  destruct a as [s |].
  - unfold astype_category.
    destruct (existsb (String.eqb s) age_categories) eqn:E.
    + apply existsb_exists in E. destruct E as (c & Hin & Hc).
      apply String.eqb_eq in Hc. subst c. simpl in Hin.
      repeat (destruct Hin as [<- | Hin]; [| ]); try contradiction;
        (repeat split;
         try discriminate;
         try (intros _; eexists; split; [reflexivity | simpl; tauto]);
         try (intros (t & [= <-] & Hin); simpl in Hin;
              intuition discriminate);
         try (intros Hn; exfalso; apply Hn; eexists;
              split; [reflexivity | simpl; tauto]);
         try reflexivity).
    + simpl. repeat split; try discriminate.
      * intros _ (t & [= <-] & Hin).
        assert (Ht : existsb (String.eqb s) age_categories = true).
        { apply existsb_exists. exists s. split; [exact Hin |].
          apply String.eqb_refl. }
        congruence.
      * intros (t & [= <-] & Hin). simpl in Hin.
        repeat (destruct Hin as [<- | Hin]; [discriminate E |]).
        contradiction.
      * intros (t & [= <-] & Hin). simpl in Hin.
        repeat (destruct Hin as [<- | Hin]; [discriminate E |]).
        contradiction.
      * intros (t & [= <-] & Hin). simpl in Hin.
        repeat (destruct Hin as [<- | Hin]; [discriminate E |]).
        contradiction.
  - simpl. repeat split; try discriminate.
    + intros _ (t & Ht & _). discriminate Ht.
    + intros (t & Ht & _). discriminate Ht.
    + intros (t & Ht & _). discriminate Ht.
    + intros (t & Ht & _). discriminate Ht.
Qed.

(** X9.  The index of a loaded table spells the patient identifiers in
    decimal: reading a label back gives the identifier, so the index has a
    duplicate exactly when [patient_id] has, which the loader does not
    check. *)
Theorem index_spells_patient_id
        (df : patient_csv F64) (out : patient_info F32) :
  load_patient_info float_of_str to_datetime df = Ok out ->
  map int_of_str (index out) = map Some (patient_id df)
  /\ (NoDup (index out) <-> NoDup (patient_id df)).
Proof.
  intros H. unfold load_patient_info in H. do 6 unbind H.
  injection H as <-. simpl. split.
  - rewrite map_map. apply map_ext. apply int_of_str_of_int.
  - apply NoDup_str_of_int.
Qed.

(** X10.  The patient loader keeps the rows: when every column read has
    [n] rows, every column returned has, the four derived ones included. *)
Theorem load_patient_info_keeps_rows
        (df : patient_csv F64) (out : patient_info F32) (n : nat) :
  load_patient_info float_of_str to_datetime df = Ok out ->
  csv_rows n df ->
  loaded_rows n out.
Proof.
  intros H Hrows.
  destruct (load_patient_info_steps _ H)
    as (xs & cs & Hxs & Hcs & Hparse & Hcast & Hs2c & Hc2r & Hc2d).
  destruct Hrows
    as (R1 & R2 & R3 & R4 & R5 & R6 & R7 & R8 & R9 & R10 & R11 & R12 & R13
        & R14).
  rewrite Hxs in R10. rewrite Hcs in R9. simpl in R9, R10.
  assert (Lsym : List.length (o_symptom_onset_date out) = n).
  { simpl in Hparse. rewrite (traverse_length _ _ Hparse), length_map.
    exact R10. }
  assert (Lcon : List.length (o_contact_number out) = n).
  { rewrite (traverse_length _ _ Hcast), length_map. exact R9. }
  assert (L1 : List.length (symptom_to_confirmed out) = n).
  { rewrite (intervals_length _ _ Hs2c), R11, Lsym. apply Nat.min_id. }
  assert (L2 : List.length (confirmed_to_released out) = n).
  { rewrite (intervals_length _ _ Hc2r), R12, R11. apply Nat.min_id. }
  assert (L3 : List.length (confirmed_to_deceased out) = n).
  { rewrite (intervals_length _ _ Hc2d), R13, R11. apply Nat.min_id. }
  unfold load_patient_info in H. do 6 unbind H. injection H as <-.
  unfold loaded_rows. simpl in *. rewrite !length_map.
  repeat split; assumption.
Qed.

(** X11.  In a loaded table each interval is the difference of its two
    dates in whole days rounded down (a release one nanosecond before the
    confirmation counts as -1 day): it is not negative exactly when the
    later event is not before the earlier one, and it is below [2 ^ 24] in
    magnitude, which single precision holds exactly. *)
Theorem intervals_round_down_to_days
        (df : patient_csv F64) (out : patient_info F32) (i : nat) :
  load_patient_info float_of_str to_datetime df = Ok out ->
  rounds_down (confirmed_date df) (o_symptom_onset_date out)
              (symptom_to_confirmed out) i
  /\ rounds_down (released_date df) (confirmed_date df)
                 (confirmed_to_released out) i
  /\ rounds_down (deceased_date df) (confirmed_date df)
                 (confirmed_to_deceased out) i.
Proof.
  intros H.
  destruct (load_patient_info_steps _ H)
    as (xs & cs & _ & _ & _ & _ & Hs2c & Hc2r & Hc2d).
  repeat split; apply intervals_round_down; assumption.
Qed.

(** X12.  In a loaded table every symptom-onset date is the date parsed
    from the trimmed entry, and an entry of whitespace only is parsed as the
    empty string is. *)
Theorem symptom_onset_dates_are_trimmed
        (df : patient_csv F64) (out : patient_info F32)
        (xs : list (option string)) (i : nat) (x : option string) :
  load_patient_info float_of_str to_datetime df = Ok out ->
  symptom_onset_date df = Text xs ->
  nth_error xs i = Some x ->
  nth_error (o_symptom_onset_date out) i
  = Some (parse_trimmed to_datetime x)
  /\ (forall s, x = Some s -> Py.blank s = true ->
                exists t, to_datetime "" = Some t
                          /\ nth_error (o_symptom_onset_date out) i = Some t).
Proof.
  intros H Hxs Hx.
  destruct (load_patient_info_steps _ H)
    as (xs' & cs & Hxs' & _ & Hparse & _).
  rewrite Hxs in Hxs'. injection Hxs' as <-.
  destruct (strip_and_parse_nth _ _ Hparse Hx) as [Hp Hs].
  split; [exact Hp |].
  intros s -> Hb. specialize (Hs s eq_refl).
  simpl in Hp. rewrite (strip_blank _ Hb) in *.
  destruct (to_datetime "") as [t |]; [| contradiction].
  exists t. split; [reflexivity | exact Hp].
Qed.

End Loader.

Lemma load_patient_info_returns_witness :
  exists xs cs,
    symptom_onset_date Examples.patients = Text xs
    /\ contact_number Examples.patients = Object cs
    /\ (forall s, In (Some s) xs ->
                  Examples.iso_date (Py.strip s) <> None)
    /\ forallb (readable_contact Examples.plain_number) cs = true.
Proof.
  apply (@load_patient_info_returns_only_on_text
           Z Z Examples.plain_number Examples.iso_date
           Examples.patients Examples.patients_loaded).
  reflexivity.
Defined.

(** Patient 4 of the example table, aged ["100s"]. *)
Lemma age_category_values_witness :
  exists g,
    nth_error (age_category Examples.patients_loaded) 4 = Some g
    /\ (g = None <-> ~ age_among age_categories (Some "100s"))
    /\ (g = Some "young" <-> age_among filed_young (Some "100s"))
    /\ (g = Some "middle" <-> age_among filed_middle (Some "100s"))
    /\ (g = Some "old" <-> age_among filed_old (Some "100s")).
Proof.
  apply (@age_category_values
           Z Z Examples.plain_number Examples.iso_date
           Examples.patients Examples.patients_loaded 4%nat (Some "100s")).
  - reflexivity.
  - reflexivity.
Defined.

Lemma index_spells_patient_id_witness :
  map int_of_str (index Examples.patients_loaded)
  = map Some (patient_id Examples.patients)
  /\ (NoDup (index Examples.patients_loaded)
      <-> NoDup (patient_id Examples.patients)).
Proof.
  apply (@index_spells_patient_id
           Z Z Examples.plain_number Examples.iso_date
           Examples.patients Examples.patients_loaded).
  reflexivity.
Defined.

Lemma load_patient_info_keeps_rows_witness :
  loaded_rows 5 Examples.patients_loaded.
Proof.
  apply (@load_patient_info_keeps_rows
           Z Z Examples.plain_number Examples.iso_date
           Examples.patients Examples.patients_loaded 5%nat).
  - reflexivity.
  - unfold csv_rows. simpl. repeat split; reflexivity.
Defined.

(** Patient 0 of the example table. *)
Lemma intervals_round_down_witness :
  rounds_down (confirmed_date Examples.patients)
              (o_symptom_onset_date Examples.patients_loaded)
              (symptom_to_confirmed Examples.patients_loaded) 0
  /\ rounds_down (released_date Examples.patients)
                 (confirmed_date Examples.patients)
                 (confirmed_to_released Examples.patients_loaded) 0
  /\ rounds_down (deceased_date Examples.patients)
                 (confirmed_date Examples.patients)
                 (confirmed_to_deceased Examples.patients_loaded) 0.
Proof.
  apply (@intervals_round_down_to_days
           Z Z Examples.plain_number Examples.iso_date
           Examples.patients Examples.patients_loaded 0%nat).
  reflexivity.
Defined.

(** Patient 3 of the example table, whose symptom-onset entry is a lone
    space. *)
Lemma symptom_onset_trimmed_witness :
  nth_error (o_symptom_onset_date Examples.patients_loaded) 3
  = Some (parse_trimmed Examples.iso_date (Some " "))
  /\ (forall s, Some " " = Some s -> Py.blank s = true ->
                exists t,
                  Examples.iso_date "" = Some t
                  /\ nth_error (o_symptom_onset_date Examples.patients_loaded)
                               3 = Some t).
Proof.
  apply (@symptom_onset_dates_are_trimmed
           Z Z Examples.plain_number Examples.iso_date
           Examples.patients Examples.patients_loaded
           [Some " 2020-01-05"; Some "2020-01-08 "; None; Some " ";
            Some "2020-01-09"] 3%nat (Some " ")).
  - reflexivity.
  - reflexivity.
  - reflexivity.
Defined.

(** The two tables [read_csv] could type. *)
Example clean_file_is_not_loaded :
  load_patient_info Examples.plain_number Examples.iso_date
                    MoreExamples.clean_patients
  = Raise AttributeError.
Proof. reflexivity. Qed.

Example numeric_contacts_are_not_loaded :
  load_patient_info Examples.plain_number Examples.iso_date
                    MoreExamples.numeric_contacts
  = Raise AttributeError.
Proof. reflexivity. Qed.

End PatientMore.

(** * Further properties of the timeseries expander *)

Module TimeSeriesMore.
Import TimeSeries TimeSeriesSpec TimeSeriesMoreSpec PyFacts MoreFacts.
Import TimeSeriesFacts.

(** ** Names *)

Lemma select_names {A : Type} (cols : list (string * list A))
      (wanted : list string) :
  forall sel, select wanted cols = Ok sel -> names sel = wanted.
Proof.
  unfold select, names.
  induction wanted as [| n wanted IH]; intros sel H.
  - injection H as <-. reflexivity.
  - apply traverse_cons_ok in H. destruct H as (y & sel' & Hy & H & ->).
    unbind Hy. injection Hy as <-. simpl. f_equal. apply IH, H.
Qed.

Lemma select_raise {A : Type} (cols : list (string * list A))
      (wanted : list string) (e : exn) :
  select wanted cols = Raise e -> e = KeyError.
Proof.
  unfold select. apply traverse_raise. intros n e' _ H.
  apply bind_raise in H. destruct H as [H | (c & _ & H)]; [| discriminate H].
  unfold getitem in H. destruct (lookup n cols); congruence.
Qed.

Lemma select_missing {A : Type} (cols : list (string * list A))
      (wanted : list string) (c : string) :
  In c wanted -> lookup c cols = None -> select wanted cols = Raise KeyError.
Proof.
  intros Hc Hnone.
  destruct (select wanted cols) as [sel | e] eqn:H.
  - destruct (select_lookup _ _ c H Hc) as (xs & Hxs & _). congruence.
  - f_equal. eapply select_raise, H.
Qed.

Lemma on_columns_names {A B : Type} (f : list A -> result (list B))
      (cols : list (string * list A)) :
  forall out, on_columns f cols = Ok out -> names out = names cols.
Proof.
  unfold on_columns, names.
  induction cols as [| [n xs] cols IH]; intros out H.
  - injection H as <-. reflexivity.
  - apply traverse_cons_ok in H. destruct H as (y & out' & Hy & H & ->).
    simpl in Hy. unbind Hy. injection Hy as <-. simpl. f_equal. apply IH, H.
Qed.

Lemma fillna_frame_names (cols other : list (string * list cell)) :
  names (fillna_frame cols other) = names cols.
Proof.
  unfold names, fillna_frame. rewrite map_map. apply map_ext.
  intros [n xs]. simpl. destruct (lookup n other); reflexivity.
Qed.

Lemma differences_names df expand grouping d :
  differences df expand grouping = Ok d -> names d = expand.
Proof.
  intros H. destruct grouping as [g |]; simpl in H.
  - unbind H. unbind H. rewrite (on_columns_names _ _ H).
    eapply select_names; eassumption.
  - unbind H. rewrite (on_columns_names _ _ H).
    eapply select_names; eassumption.
Qed.

Lemma differences_raise_missing df expand grouping :
  (exists g, grouping = Some g /\ lookup g (columns df) = None)
  \/ (exists c, In c expand /\ lookup c (columns df) = None) ->
  differences df expand grouping = Raise KeyError.
Proof.
  intros [(g & -> & Hg) | (c & Hc & Hnone)]; simpl.
  - unfold getitem. rewrite Hg. reflexivity.
  - destruct grouping as [g |]; simpl.
    + unfold getitem. destruct (lookup g (columns df)); [| reflexivity].
      simpl. rewrite (@select_missing _ (columns df) expand c Hc Hnone).
      reflexivity.
    + rewrite (@select_missing _ (columns df) expand c Hc Hnone).
      reflexivity.
Qed.

Lemma missing_raises df expand ratio grouping :
  (exists g, grouping = Some g /\ lookup g (columns df) = None)
  \/ (exists c, In c expand /\ lookup c (columns df) = None) ->
  update_time_df df expand ratio grouping
  = {| returned := Raise KeyError;
       df_after := unchanged df;
       expand_after := expand |}.
Proof.
  intros H. unfold update_time_df, daily_updates.
  rewrite (@differences_raise_missing df expand grouping H). reflexivity.
Qed.

(** The names of the cast columns are those of [expand]. *)
Lemma cast_names df expand ratio grouping news :
  daily_updates df expand ratio grouping = Ok news ->
  In (fst ratio) expand /\ In (snd ratio) expand
  /\ (~ In (ratio_column_name ratio) expand ->
      names news
      = map (String.append "new_") (expand ++ [ratio_column_name ratio])).
Proof.
  intros H. unfold daily_updates in H.
  unbind H. unbind H. unbind H. unbind H. injection H as <-.
  assert (Hn : names a0 = expand).
  { rewrite (on_columns_names _ _ Ha0), fillna_frame_names.
    eapply differences_names, Ha. }
  assert (Hin : forall n ys, getitem n a0 = Ok ys -> In n expand).
  { intros n ys Hg. unfold getitem in Hg.
    destruct (lookup n a0) as [zs |] eqn:E; [| discriminate].
    rewrite <- Hn. apply lookup_In in E. unfold names.
    apply in_map_iff. exists (n, zs). split; [reflexivity | exact E]. }
  split; [eapply Hin, Ha1 |]. split; [eapply Hin, Ha2 |].
  intros Hr. rewrite names_add_prefix. f_equal.
  rewrite setitem_new.
  - unfold names. rewrite map_app, map_map. simpl. f_equal.
    exact Hn.
  - unfold names. rewrite map_map.
    change (~ In (ratio_column_name ratio) (names a0)). rewrite Hn.
    exact Hr.
Qed.

Lemma ratio_not_expanded df expand ratio grouping news :
  fresh_names df expand ratio = true ->
  daily_updates df expand ratio grouping = Ok news ->
  ~ In (ratio_column_name ratio) expand.
Proof.
  intros Hfresh Hnews Hin.
  destruct (@expanded_column_exists df expand ratio grouping news
                                    (ratio_column_name ratio) Hnews Hin)
    as (xs & Hxs).
  exact (@expanded_is_not_ratio df expand ratio _ xs Hfresh Hxs eq_refl).
Qed.


Lemma lookup_setitem_same {A : Type} (r : string) (col : list A)
      (cols : list (string * list A)) :
  lookup r (setitem r col cols) = Some col.
Proof.
  induction cols as [| [m x] cols IH]; simpl.
  - rewrite String.eqb_refl. reflexivity.
  - destruct (String.eqb m r) eqn:E; simpl; rewrite E; [reflexivity | exact IH].
Qed.

Lemma names_app {A : Type} (cols cols' : list (string * list A)) :
  names (cols ++ cols') = names cols ++ names cols'.
Proof. unfold names. apply map_app. Qed.

Lemma names_renamed {A : Type} (g : string -> string)
      (cols : list (string * list A)) :
  names (map (fun nc => (g (fst nc), snd nc)) cols) = map g (names cols).
Proof. unfold names. rewrite !map_map. reflexivity. Qed.

(** ** What a call raises *)

(** X13.  A column named in [expand], or the grouping column, that the
    table does not have makes the call raise [KeyError] before anything is
    changed. *)
Theorem missing_column_raises_key_error
        (df : frame cell) (expand : list string) (ratio : string * string)
        (grouping : option string) :
  (exists g, grouping = Some g /\ lookup g (columns df) = None)
  \/ (exists c, In c expand /\ lookup c (columns df) = None) ->
  returned (update_time_df df expand ratio grouping) = Raise KeyError
  /\ df_after (update_time_df df expand ratio grouping) = unchanged df
  /\ expand_after (update_time_df df expand ratio grouping) = expand.
Proof.
  intros H. rewrite (@missing_raises df expand ratio grouping H).
  repeat split.
Qed.

(** X14.  The two columns of the ratio are looked up among the expanded
    columns: when one of them is not named in [expand], an empty [expand]
    included, the call never returns a table, and leaves its arguments as
    they were. *)
Theorem ratio_outside_expand_never_returns
        (df : frame cell) (expand : list string) (ratio : string * string)
        (grouping : option string) :
  ~ In (fst ratio) expand \/ ~ In (snd ratio) expand ->
  exists e,
    returned (update_time_df df expand ratio grouping) = Raise e
    /\ df_after (update_time_df df expand ratio grouping) = unchanged df
    /\ expand_after (update_time_df df expand ratio grouping) = expand.
Proof.
  intros H.
  destruct (returned (update_time_df df expand ratio grouping))
    as [ret | e] eqn:Hret.
  - exfalso.
    destruct (@update_time_df_returns df expand ratio grouping ret Hret)
      as (news & quotient & Hnews & _).
    destruct (@cast_names df expand ratio grouping news Hnews)
      as (H0 & H1 & _).
    destruct H as [H | H]; contradiction.
  - exists e. split; [reflexivity |].
    eapply update_time_df_raises. exact Hret.
Qed.

(** X15.  The list a returning call was given cannot be given to a second
    call as it is: it now ends with the name of the ratio column, and on a
    table without a column of that name the second call raises
    [KeyError]. *)
Theorem expand_list_cannot_be_reused
        (df : frame cell) (expand : list string) (ratio : string * string)
        (grouping : option string) (ret : frame value)
        (df' : frame cell) (ratio' : string * string)
        (grouping' : option string) :
  returned (update_time_df df expand ratio grouping) = Ok ret ->
  lookup (ratio_column_name ratio) (columns df') = None ->
  returned (update_time_df
              df' (expand_after (update_time_df df expand ratio grouping))
              ratio' grouping')
  = Raise KeyError.
Proof.
  intros Hret Hnone.
  destruct (@update_time_df_returns df expand ratio grouping ret Hret)
    as (news & quotient & _ & _ & -> & _).
  cbn [expand_after].
  rewrite missing_raises; [reflexivity |].
  right. exists (ratio_column_name ratio). split; [| exact Hnone].
  apply in_or_app. right. left. reflexivity.
Qed.

(** ** What a call returns *)

(** X16.  The columns of the returned table, in order: the columns of
    the table handed in, those named in [expand] under their [accumulated_]
    name, then the accumulated ratio, then the [new_] column of every name
    in [expand], then the new ratio. *)
Theorem returned_column_names
        (df : frame cell) (expand : list string) (ratio : string * string)
        (grouping : option string) (ret : frame value) :
  fresh_names df expand ratio = true ->
  returned (update_time_df df expand ratio grouping) = Ok ret ->
  names (columns ret)
  = map (accumulated_name (expand ++ [ratio_column_name ratio]))
        (names (columns df))
    ++ [("accumulated_" ++ ratio_column_name ratio)%string]
    ++ map (String.append "new_") (expand ++ [ratio_column_name ratio]).
Proof.
  intros Hfresh Hret.
  destruct (@update_time_df_returns df expand ratio grouping ret Hret)
    as (news & quotient & Hnews & _ & _ & ->).
  cbn [columns]. rewrite kept_columns by exact Hfresh.
  destruct (@cast_names df expand ratio grouping news Hnews)
    as (_ & _ & Hn).
  rewrite names_app, Hn by (eapply ratio_not_expanded; eassumption).
  rewrite (names_renamed
             (accumulated_name (expand ++ [ratio_column_name ratio]))).
  rewrite names_app, names_lift, map_app, <- app_assoc.
  f_equal. cbn [names map fst app]. f_equal. unfold accumulated_name.
  assert (Hm : mem (ratio_column_name ratio)
                   (expand ++ [ratio_column_name ratio]) = true).
  { apply mem_In. apply in_or_app. right. left. reflexivity. }
  rewrite Hm. reflexivity.
Qed.


Lemma truediv_counts (xs ys : list Z) :
  truediv (map Int xs) (map Int ys) = Ok (truediv_int xs ys).
Proof.
  unfold truediv, truediv_int.
  revert ys. induction xs as [| x xs IH]; intros [| y ys]; simpl;
    try reflexivity.
  rewrite IH. reflexivity.
Qed.

Lemma lookup_new_ratio df expand ratio quotient :
  fresh_names df expand ratio = true ->
  lookup ("new_" ++ ratio_column_name ratio)
         (accumulated_columns
            (expand ++ [ratio_column_name ratio])
            (setitem (ratio_column_name ratio) quotient (lift (columns df))))
  = None.
Proof.
  intros Hfresh. rewrite kept_columns by exact Hfresh.
  apply fresh_names_spec in Hfresh. destruct Hfresh as [_ Hf].
  assert (Hr : In (ratio_column_name ratio)
                  (expand ++ [ratio_column_name ratio]))
    by (apply in_or_app; right; left; reflexivity).
  apply lookup_new_renamed. intros n Hn Hm.
  rewrite names_app, names_lift in Hn. apply in_app_or in Hn.
  destruct Hn as [Hn | [<- | []]].
  - intros ->. apply (proj2 (proj2 (Hf _ Hr))), Hn.
  - apply mem_not_In in Hm. contradiction.
Qed.

Lemma lookup_accumulated_ratio df expand ratio quotient :
  fresh_names df expand ratio = true ->
  lookup ("accumulated_" ++ ratio_column_name ratio)
         (accumulated_columns
            (expand ++ [ratio_column_name ratio])
            (setitem (ratio_column_name ratio) quotient (lift (columns df))))
  = Some quotient.
Proof.
  intros Hfresh. rewrite kept_columns by exact Hfresh.
  apply fresh_names_spec in Hfresh. destruct Hfresh as [Hnew Hf].
  assert (Hr : In (ratio_column_name ratio)
                  (expand ++ [ratio_column_name ratio]))
    by (apply in_or_app; right; left; reflexivity).
  destruct (Hf _ Hr) as (H1 & H2 & _).
  rewrite lookup_accumulated; [| exact Hr |].
  - rewrite lookup_app.
    assert (Hnone : lookup (ratio_column_name ratio) (lift (columns df))
                    = None)
      by (apply lookup_absent; rewrite names_lift; exact Hnew).
    rewrite Hnone. cbn [lookup]. rewrite String.eqb_refl. reflexivity.
  - rewrite names_app, names_lift. intros Hn. apply in_app_or in Hn.
    destruct Hn as [Hn | [Hn | []]]; [exact (H2 Hn) |].
    cbn [fst] in Hn. apply H1. rewrite <- Hn. exact Hr.
Qed.

(** X18.  The two ratio columns of the returned table are quotients of
    columns of that table, row by row: the accumulated ratio of the two
    accumulated columns, the new ratio of the two [new_] columns (and not
    the difference of the accumulated ratio). *)
Theorem ratio_columns_are_quotients
        (df : frame cell) (expand : list string) (ratio : string * string)
        (grouping : option string) (ret : frame value) :
  well_formed df ->
  fresh_names df expand ratio = true ->
  returned (update_time_df df expand ratio grouping) = Ok ret ->
  exists num den dnum dden,
    lookup ("accumulated_" ++ fst ratio) (columns ret) = Some (counts num)
    /\ lookup ("accumulated_" ++ snd ratio) (columns ret)
       = Some (counts den)
    /\ lookup ("accumulated_" ++ ratio_column_name ratio) (columns ret)
       = Some (truediv_int num den)
    /\ lookup ("new_" ++ fst ratio) (columns ret) = Some (counts dnum)
    /\ lookup ("new_" ++ snd ratio) (columns ret) = Some (counts dden)
    /\ lookup ("new_" ++ ratio_column_name ratio) (columns ret)
       = Some (truediv_int dnum dden).
Proof.
  intros Hwf Hfresh Hret.
  destruct (@update_time_df_returns df expand ratio grouping ret Hret)
    as (news & quotient & Hnews & Hq & _ & Hcols).
  destruct (@cast_names df expand ratio grouping news Hnews)
    as (Hin0 & Hin1 & _).
  destruct (@returned_columns df expand ratio grouping ret (fst ratio)
                              Hwf Hfresh Hret Hin0)
    as (num & Hnum & Hacc0 & Hnew0 & _).
  destruct (@returned_columns df expand ratio grouping ret (snd ratio)
                              Hwf Hfresh Hret Hin1)
    as (den & Hden & Hacc1 & Hnew1 & _).
  exists num, den,
    (grouped_deltas [] (group_keys df grouping) num),
    (grouped_deltas [] (group_keys df grouping) den).
  split; [exact Hacc0 |]. split; [exact Hacc1 |].
  split; [| split; [exact Hnew0 | split; [exact Hnew1 |]]].
  - unfold getitem in Hq. rewrite Hnum, Hden in Hq. simpl in Hq.
    rewrite truediv_counts in Hq. injection Hq as <-.
    subst ret. cbn [columns].
    rewrite lookup_app, lookup_accumulated_ratio by exact Hfresh.
    reflexivity.
  - subst ret. cbn [columns].
    rewrite lookup_app, lookup_new_ratio by exact Hfresh.
    unfold daily_updates in Hnews.
    unbind Hnews. unbind Hnews. unbind Hnews. unbind Hnews.
    injection Hnews as <-.
    rewrite lookup_add_prefix, lookup_setitem_same.
    destruct (@cast_columns df expand grouping a a0 (fst ratio)
                            Hwf Ha Ha0 Hin0) as (zs0 & Hz0 & Hl0 & _).
    destruct (@cast_columns df expand grouping a a0 (snd ratio)
                            Hwf Ha Ha0 Hin1) as (zs1 & Hz1 & Hl1 & _).
    rewrite Hnum in Hz0. rewrite Hden in Hz1.
    assert (E0 : zs0 = num).
    { injection Hz0 as Hz0. symmetry.
      revert Hz0. generalize zs0. clear.
      induction num as [| x xs IH]; intros [| y ys] H; simpl in H;
        try discriminate; [reflexivity |].
      injection H as -> H. f_equal. apply IH, H. }
    assert (E1 : zs1 = den).
    { injection Hz1 as Hz1. symmetry.
      revert Hz1. generalize zs1. clear.
      induction den as [| x xs IH]; intros [| y ys] H; simpl in H;
        try discriminate; [reflexivity |].
      injection H as -> H. f_equal. apply IH, H. }
    subst zs0 zs1.
    unfold getitem in Ha1, Ha2. rewrite Hl0 in Ha1. rewrite Hl1 in Ha2.
    injection Ha1 as <-. injection Ha2 as <-. reflexivity.
Qed.

Lemma deltas_nonnegative (xs : list Z) :
  forall prev,
    Forall (fun d => 0 <= d) (deltas prev xs) <-> never_decreases prev xs.
Proof.
  induction xs as [| x xs IH]; intros prev; simpl.
  - split; [trivial | constructor].
  - rewrite Forall_cons_iff, IH. split; intros [H1 H2]; split;
      try assumption; lia.
Qed.

(** X19.  Without grouping, no [new_] value of an expanded column is
    negative exactly when the accumulated column starts at zero or above
    and never decreases along the rows. *)
Theorem new_values_are_nonnegative_iff
        (df : frame cell) (expand : list string) (ratio : string * string)
        (ret : frame value) (c : string) :
  well_formed df ->
  fresh_names df expand ratio = true ->
  returned (update_time_df df expand ratio None) = Ok ret ->
  In c expand ->
  exists xs ds,
    lookup ("accumulated_" ++ c) (columns ret) = Some (counts xs)
    /\ lookup ("new_" ++ c) (columns ret) = Some (counts ds)
    /\ (Forall (fun d => 0 <= d) ds <-> never_decreases 0 xs).
Proof.
  intros Hwf Hfresh Hret Hc.
  destruct (@returned_columns df expand ratio None ret c
                              Hwf Hfresh Hret Hc)
    as (zs & _ & Hacc & Hnew & Hlen).
  exists zs, (grouped_deltas [] (group_keys df None) zs).
  split; [exact Hacc |]. split; [exact Hnew |].
  unfold group_keys in *. rewrite repeat_length in Hlen. rewrite Hlen.
  rewrite grouped_deltas_no_group. apply deltas_nonnegative.
Qed.

Lemma diff_from_one_group (k : cell) (xs : list cell) :
  cell_eqb k k = true ->
  forall prev seen,
    previous k seen = prev ->
    diff_from prev xs
    = grouped_diff_from seen (repeat k (List.length xs)) xs.
Proof.
  intros Hk.
  induction xs as [| x xs IH]; intros prev seen Hprev; simpl.
  - reflexivity.
  - rewrite Hprev.
    rewrite (IH (Some x) ((k, x) :: seen))
      by (simpl; rewrite Hk; reflexivity).
    reflexivity.
Qed.

Lemma on_columns_ext {A B : Type} (f g : list A -> result (list B))
      (cols : list (string * list A)) :
  (forall nc, In nc cols -> f (snd nc) = g (snd nc)) ->
  on_columns f cols = on_columns g cols.
Proof.
  intros H. unfold on_columns. apply traverse_ext.
  intros nc Hnc. rewrite (H nc Hnc). reflexivity.
Qed.

(** X20.  Grouping by a column that holds one label on every row is no
    grouping: the call returns, raises and changes its arguments as the
    call without grouping. *)
Theorem one_group_is_no_grouping
        (df : frame cell) (expand : list string) (ratio : string * string)
        (g : string) (k : cell) :
  well_formed df ->
  lookup g (columns df) = Some (repeat k (List.length (index df))) ->
  cell_eqb k k = true ->
  update_time_df df expand ratio (Some g)
  = update_time_df df expand ratio None.
Proof.
  intros Hwf Hg Hk.
  assert (Hd : differences df expand (Some g) = differences df expand None).
  { simpl. unfold getitem. rewrite Hg. simpl.
    destruct (select expand (columns df)) as [sel |] eqn:Hsel; simpl;
      [| reflexivity].
    apply on_columns_ext. intros [n xs] Hin. simpl.
    assert (Hrows : rows (List.length (index df)) sel).
    { eapply select_rows; [apply Hwf | exact Hsel]. }
    unfold rows in Hrows. rewrite Forall_forall in Hrows.
    specialize (Hrows _ Hin). simpl in Hrows.
    unfold grouped_diff, diff. rewrite <- Hrows. symmetry.
    apply diff_from_one_group; [exact Hk | reflexivity]. }
  unfold update_time_df, daily_updates. rewrite Hd. reflexivity.
Qed.

Lemma rows_of_grouped_deltas_from (k : cell) (keys : list cell) :
  cell_eqb k k = true ->
  forall seen zs p,
    previous k seen = Some p ->
    rows_of k keys (grouped_deltas seen keys zs)
    = deltas p (rows_of k keys zs).
Proof.
  intros Hk.
  induction keys as [| k' keys IH]; intros seen zs p Hp; [reflexivity |].
  destruct zs as [| z zs]; [reflexivity |].
  cbn [grouped_deltas rows_of].
  destruct (cell_eqb k' k) eqn:E.
  - apply cell_eqb_eq in E. subst k'. rewrite Hp. cbn [deltas]. f_equal.
    apply IH. simpl. rewrite Hk. reflexivity.
  - apply IH. simpl. rewrite E. exact Hp.
Qed.

Lemma rows_of_grouped_deltas (k : cell) (keys : list cell) :
  cell_eqb k k = true ->
  forall seen zs,
    previous k seen = None ->
    rows_of k keys (grouped_deltas seen keys zs)
    = deltas 0 (rows_of k keys zs).
Proof.
  intros Hk.
  induction keys as [| k' keys IH]; intros seen zs Hp; [reflexivity |].
  destruct zs as [| z zs]; [reflexivity |].
  cbn [grouped_deltas rows_of].
  destruct (cell_eqb k' k) eqn:E.
  - apply cell_eqb_eq in E. subst k'. rewrite Hp. cbn [deltas].
    rewrite Z.sub_0_r. f_equal.
    apply rows_of_grouped_deltas_from; [exact Hk |].
    simpl. rewrite Hk. reflexivity.
  - apply IH. simpl. rewrite E. exact Hp.
Qed.

(** X21.  With a grouping column, the [new_] values on the rows of one
    group are what the expansion without grouping gives on those rows
    alone: each accumulated value of the group minus the one before it in
    the group, the first one minus zero. *)
Theorem group_rows_are_expanded_alone
        (df : frame cell) (expand : list string) (ratio : string * string)
        (g : string) (ret : frame value) (c : string) (k : cell) :
  well_formed df ->
  fresh_names df expand ratio = true ->
  returned (update_time_df df expand ratio (Some g)) = Ok ret ->
  In c expand ->
  cell_eqb k k = true ->
  exists xs ds,
    lookup ("accumulated_" ++ c) (columns ret) = Some (counts xs)
    /\ lookup ("new_" ++ c) (columns ret) = Some (counts ds)
    /\ rows_of k (group_keys df (Some g)) ds
       = deltas 0 (rows_of k (group_keys df (Some g)) xs).
Proof.
  intros Hwf Hfresh Hret Hc Hk.
  destruct (@returned_columns df expand ratio (Some g) ret c
                              Hwf Hfresh Hret Hc)
    as (zs & _ & Hacc & Hnew & _).
  exists zs, (grouped_deltas [] (group_keys df (Some g)) zs).
  split; [exact Hacc |]. split; [exact Hnew |].
  apply rows_of_grouped_deltas; [exact Hk | reflexivity].
Qed.

(** ** The example tables *)

Lemma time_one_group_well_formed : well_formed MoreExamples.time_one_group.
Proof.
  split.
  - repeat constructor; simpl; intuition discriminate.
  - repeat constructor.
Qed.

(** The three-day table has no column ["released"]. *)
Lemma missing_column_witness :
  returned (update_time_df Examples.time ["confirmed"; "released"]
                           ("released", "confirmed") None)
  = Raise KeyError
  /\ df_after (update_time_df Examples.time ["confirmed"; "released"]
                              ("released", "confirmed") None)
     = unchanged Examples.time
  /\ expand_after (update_time_df Examples.time ["confirmed"; "released"]
                                  ("released", "confirmed") None)
     = ["confirmed"; "released"].
Proof.
  apply (@missing_column_raises_key_error
           Examples.time ["confirmed"; "released"]
           ("released", "confirmed") None).
  right. exists "released". split; [simpl; auto | reflexivity].
Defined.

(** The denominator of the ratio is a column of the table, though not one
    to expand. *)
Lemma ratio_outside_expand_witness :
  exists e,
    returned (update_time_df Examples.time ["deceased"]
                             Examples.time_ratio None) = Raise e
    /\ df_after (update_time_df Examples.time ["deceased"]
                                Examples.time_ratio None)
       = unchanged Examples.time
    /\ expand_after (update_time_df Examples.time ["deceased"]
                                    Examples.time_ratio None)
       = ["deceased"].
Proof.
  apply (@ratio_outside_expand_never_returns
           Examples.time ["deceased"] Examples.time_ratio None).
  right. simpl. intros [H | []]. discriminate H.
Defined.

(** One list for two tables of the same columns. *)
Lemma expand_list_witness :
  returned (update_time_df
              MoreExamples.time_again
              (expand_after (update_time_df Examples.time Examples.time_expand
                                            Examples.time_ratio None))
              Examples.time_ratio None)
  = Raise KeyError.
Proof.
  apply (@expand_list_cannot_be_reused
           Examples.time Examples.time_expand Examples.time_ratio None
           Examples.time_expanded MoreExamples.time_again
           Examples.time_ratio None).
  - reflexivity.
  - reflexivity.
Defined.

Lemma returned_column_names_witness :
  names (columns Examples.time_province_expanded)
  = map (accumulated_name
           (Examples.time_expand ++ [ratio_column_name Examples.time_ratio]))
        (names (columns Examples.time_province))
    ++ [("accumulated_" ++ ratio_column_name Examples.time_ratio)%string]
    ++ map (String.append "new_")
           (Examples.time_expand ++ [ratio_column_name Examples.time_ratio]).
Proof.
  apply (@returned_column_names
           Examples.time_province Examples.time_expand Examples.time_ratio
           (Some "province") Examples.time_province_expanded).
  - reflexivity.
  - reflexivity.
Defined.


Lemma ratio_columns_witness :
  exists num den dnum dden,
    lookup "accumulated_deceased" (columns Examples.time_expanded)
    = Some (counts num)
    /\ lookup "accumulated_confirmed" (columns Examples.time_expanded)
       = Some (counts den)
    /\ lookup "accumulated_deceased_to_confirmed_ratio"
              (columns Examples.time_expanded)
       = Some (truediv_int num den)
    /\ lookup "new_deceased" (columns Examples.time_expanded)
       = Some (counts dnum)
    /\ lookup "new_confirmed" (columns Examples.time_expanded)
       = Some (counts dden)
    /\ lookup "new_deceased_to_confirmed_ratio"
              (columns Examples.time_expanded)
       = Some (truediv_int dnum dden).
Proof.
  apply (@ratio_columns_are_quotients
           Examples.time Examples.time_expand Examples.time_ratio None
           Examples.time_expanded).
  - exact time_well_formed.
  - reflexivity.
  - reflexivity.
Defined.

Lemma new_values_nonnegative_witness :
  exists xs ds,
    lookup "accumulated_confirmed" (columns Examples.time_expanded)
    = Some (counts xs)
    /\ lookup "new_confirmed" (columns Examples.time_expanded)
       = Some (counts ds)
    /\ (Forall (fun d => 0 <= d) ds <-> never_decreases 0 xs).
Proof.
  apply (@new_values_are_nonnegative_iff
           Examples.time Examples.time_expand Examples.time_ratio
           Examples.time_expanded "confirmed").
  - exact time_well_formed.
  - reflexivity.
  - reflexivity.
  - simpl. auto.
Defined.

Lemma one_group_witness :
  update_time_df MoreExamples.time_one_group Examples.time_expand
                 Examples.time_ratio (Some "country")
  = update_time_df MoreExamples.time_one_group Examples.time_expand
                   Examples.time_ratio None.
Proof.
  apply (@one_group_is_no_grouping
           MoreExamples.time_one_group Examples.time_expand
           Examples.time_ratio "country" (Str "Korea")).
  - exact time_one_group_well_formed.
  - reflexivity.
  - reflexivity.
Defined.

(** The rows of Seoul in the table of two provinces. *)
Lemma group_rows_witness :
  exists xs ds,
    lookup "accumulated_confirmed" (columns Examples.time_province_expanded)
    = Some (counts xs)
    /\ lookup "new_confirmed" (columns Examples.time_province_expanded)
       = Some (counts ds)
    /\ rows_of (Str "Seoul")
               (group_keys Examples.time_province (Some "province")) ds
       = deltas 0 (rows_of (Str "Seoul")
                           (group_keys Examples.time_province
                                       (Some "province")) xs).
Proof.
  apply (@group_rows_are_expanded_alone
           Examples.time_province Examples.time_expand Examples.time_ratio
           "province" Examples.time_province_expanded "confirmed"
           (Str "Seoul")).
  - exact time_province_well_formed.
  - reflexivity.
  - reflexivity.
  - simpl. auto.
  - reflexivity.
Defined.

End TimeSeriesMore.
